(** * bidwire: the City of Boston scraper (src/bidwire/cityofboston_scraper.py)

    A shallow embedding of [CityOfBostonScraper] and the properties of its
    ingestion pipeline: listing extraction, the detail-link pattern, detail
    parsing, the harvester loop over the futures of a thread pool, and the run
    ([scrape]).

    Conventions of the embedding.
    - Python [str] is [string]; a character is a code point below 256.  In
      that range [\d] of [re] is exactly '0'..'9', and the characters
      [str.strip()] removes are 9-13, 28-32, 133 and 160.
    - A page's [content] is a [body]: the lxml tree [html.fromstring] builds
      from it (an [element] with lxml's [text]/[tail] layout), or a body
      without any element, on which [html.fromstring] raises [ParserError].
      How the HTML parser turns characters into a tree is not part of the
      repository and is not modelled.
    - A Python call that may raise returns a [result]; code that touches the
      session, the log or the outside world runs in the monad [M]. *)

From Stdlib Require Import List String Ascii Bool Arith Lia Permutation.
Import ListNotations.

Local Open Scope string_scope.
Local Open Scope list_scope.
Local Open Scope nat_scope.

(* ================================================================== *)
(** ** Python strings *)

Module PyStr.

(** [str.isspace] on one character (code points below 256). *)
Definition is_space (c : ascii) : bool :=
  let n := nat_of_ascii c in
  ((9 <=? n) && (n <=? 13)) || ((28 <=? n) && (n <=? 32))
  || (n =? 133) || (n =? 160).

(** [\d] of a [str] pattern (code points below 256): '0'..'9'. *)
Definition is_digit (c : ascii) : bool :=
  let n := nat_of_ascii c in (48 <=? n) && (n <=? 57).

Fixpoint lstrip (s : string) : string :=
  match s with
  | String c s' => if is_space c then lstrip s' else s
  | EmptyString => EmptyString
  end.

Fixpoint rstrip (s : string) : string :=
  match s with
  | EmptyString => EmptyString
  | String c s' =>
      match rstrip s' with
      | EmptyString => if is_space c then EmptyString else String c EmptyString
      | r => String c r
      end
  end.

(** [s.strip()] *)
Definition strip (s : string) : string := rstrip (lstrip s).

(** [sep.join(parts)] *)
Fixpoint join (sep : string) (parts : list string) : string :=
  match parts with
  | [] => EmptyString
  | [p] => p
  | p :: rest => (p ++ sep ++ join sep rest)%string
  end.

(** Iterating over a [str] yields its characters as one-character strings. *)
Fixpoint chars (s : string) : list string :=
  match s with
  | EmptyString => []
  | String c s' => String c EmptyString :: chars s'
  end.

Fixpoint all_chars (p : ascii -> bool) (s : string) : bool :=
  match s with
  | EmptyString => true
  | String c s' => p c && all_chars p s'
  end.

Fixpoint take_while (p : ascii -> bool) (s : string) : string :=
  match s with
  | String c s' => if p c then String c (take_while p s') else EmptyString
  | EmptyString => EmptyString
  end.

Fixpoint drop_while (p : ascii -> bool) (s : string) : string :=
  match s with
  | String c s' => if p c then drop_while p s' else s
  | EmptyString => EmptyString
  end.

(** [s.startswith(p)], returning what follows the prefix. *)
Fixpoint strip_prefix (p s : string) : option string :=
  match p, s with
  | EmptyString, _ => Some s
  | String a p', String b s' =>
      if Ascii.eqb a b then strip_prefix p' s' else None
  | String _ _, EmptyString => None
  end.

(** Whether the first character of [s], if any, satisfies [p]. *)
Definition starts_with (p : ascii -> bool) (s : string) : bool :=
  match s with
  | String c _ => p c
  | EmptyString => false
  end.

End PyStr.

(* ================================================================== *)
(** ** The fragment of [re] the module uses

    [compiled_reg_exp = re.compile("bids\.asp\?ID=(\d+)")] needs literal
    characters, the class [\d], a greedy [+] over a one-character atom, a
    capturing group and concatenation.  [Pattern.match] anchors the pattern
    at position 0 and lets anything follow the match. *)

Module Re.

Inductive atom : Type :=
| Lit (c : ascii)     (* a literal character, also the escaped [\.] and [\?] *)
| Digit.              (* [\d] *)

Inductive regex : Type :=
| Empty
| Atom (a : atom)
| Plus (a : atom)             (* [a+], greedy *)
| Group (r : regex)           (* [(r)], capturing *)
| Cat (r1 r2 : regex).

Definition atom_matches (a : atom) (c : ascii) : bool :=
  match a with
  | Lit c' => Ascii.eqb c' c
  | Digit => PyStr.is_digit c
  end.

(** The captured groups, in the order their groups close: a match object. *)
Definition match_object : Type := list string.

(** Greedy repetition with backtracking: consume while the atom matches,
    and give back one character at a time when the rest fails. *)
Fixpoint star {A} (a : atom) (s : string)
    (k : string -> option A) : option A :=
  match s with
  | String c s' =>
      if atom_matches a c then
        match star a s' k with
        | Some m => Some m
        | None => k s
        end
      else k s
  | EmptyString => k s
  end.

(** The text consumed between [s] and its suffix [rest]. *)
Definition consumed (s rest : string) : string :=
  substring 0 (String.length s - String.length rest) s.

Fixpoint run (r : regex) (s : string) (groups : match_object)
    (k : string -> match_object -> option match_object)
    : option match_object :=
  match r with
  | Empty => k s groups
  | Atom a =>
      match s with
      | String c s' => if atom_matches a c then k s' groups else None
      | EmptyString => None
      end
  | Plus a =>
      match s with
      | String c s' =>
          if atom_matches a c then star a s' (fun rest => k rest groups)
          else None
      | EmptyString => None
      end
  | Group r' =>
      run r' s groups (fun rest gs => k rest (gs ++ [consumed s rest]))
  | Cat r1 r2 =>
      run r1 s groups (fun rest gs => run r2 rest gs k)
  end.

(** [pattern.match(s)]: [None] or a match object. *)
Definition match_ (pattern : regex) (s : string) : option match_object :=
  run pattern s [] (fun _ gs => Some gs).

(** [m.group(i)] for [i >= 1]. *)
Definition group (m : match_object) (i : nat) : string :=
  nth (i - 1) m EmptyString.

(** A run of literal characters. *)
Fixpoint lits (s : string) : regex :=
  match s with
  | EmptyString => Empty
  | String c s' => Cat (Atom (Lit c)) (lits s')
  end.

End Re.

(** [compiled_reg_exp = re.compile("bids\.asp\?ID=(\d+)")] *)
Definition compiled_reg_exp : Re.regex :=
  Re.Cat (Re.lits "bids")
    (Re.Cat (Re.Atom (Re.Lit "."))
       (Re.Cat (Re.lits "asp")
          (Re.Cat (Re.Atom (Re.Lit "?"))
             (Re.Cat (Re.lits "ID=")
                (Re.Group (Re.Plus Re.Digit)))))).

(** Number of concurrent threads to process results page *)
Definition NUMBER_OF_THREADS : nat := 5.

(** [get_bid_id(self, href)]: the ID of the href link, or [None]. *)
Definition get_bid_id (href : string) : option string :=
  match Re.match_ compiled_reg_exp href with
  | Some regexp_match => Some (Re.group regexp_match 1)
  | None => None
  end.

(* ================================================================== *)
(** ** lxml trees and the XPath queries of the scraper *)

(** An lxml element: [tag], [attrib], [text] (the text before the first
    child), the child elements, and [tail] (the text after the element's end
    tag, up to the next sibling).  lxml gives [None] for an absent text. *)
#[local] Set Warnings "-register-all".
Inductive element : Type :=
| Element (tag : string) (attrib : list (string * string))
    (text : option string) (children : list element) (tail : option string).

Definition tag (e : element) : string :=
  match e with Element t _ _ _ _ => t end.
Definition attrib (e : element) : list (string * string) :=
  match e with Element _ a _ _ _ => a end.
Definition text (e : element) : option string :=
  match e with Element _ _ x _ _ => x end.
Definition children (e : element) : list element :=
  match e with Element _ _ _ cs _ => cs end.
Definition tail (e : element) : option string :=
  match e with Element _ _ _ _ x => x end.

(** [e.attrib.get(name)] *)
Fixpoint attrib_get (name : string) (a : list (string * string))
    : option string :=
  match a with
  | [] => None
  | (k, v) :: rest => if String.eqb k name then Some v else attrib_get name rest
  end.

Definition option_list {A} (o : option A) : list A :=
  match o with Some a => [a] | None => [] end.

Module XPath.

(** [//name]: every element of the document with that tag, in document
    order (the root included). *)
Fixpoint descendant_or_self (name : string) (e : element) : list element :=
  match e with
  | Element t _ _ cs _ =>
      (if String.eqb t name then [e] else [])
        ++ flat_map (descendant_or_self name) cs
  end.

(** [name] from a context element: its child elements with that tag. *)
Definition child (name : string) (e : element) : list element :=
  filter (fun c => String.eqb (tag c) name) (children e).

(** [text()] from a context element: its text-node children, that is its
    own [text] and the [tail] of each child, in document order. *)
Definition text_nodes (e : element) : list string :=
  option_list (text e) ++ flat_map (fun c => option_list (tail c)) (children e).

(** The elements [child] that are children of a [parent] element anywhere
    below [e], in document order: a node set is returned sorted in document
    order, so a selected child comes before the selected nodes nested in
    it and after those of its preceding siblings. *)
Fixpoint child_of_below (parent child : string) (e : element) : list element :=
  match e with
  | Element t _ _ cs _ =>
      flat_map
        (fun c =>
           (if String.eqb t parent && String.eqb (tag c) child then [c] else [])
             ++ child_of_below parent child c)
        cs
  end.

(** [//parent/child/@name] evaluated on the document whose root is [root]. *)
Definition attr_of_child_of (parent child name : string) (root : element)
    : list string :=
  flat_map (fun c => option_list (attrib_get name (attrib c)))
    (child_of_below parent child root).

End XPath.

(* ================================================================== *)
(** ** Exceptions, bids, responses *)

Inductive exn : Type :=
| IndexError                     (* [xs[0]] on an empty list *)
| AttributeError                 (* [None.strip()] *)
| ParserError                    (* [html.fromstring] on a body without element *)
| TransportError (msg : string)  (* raised by [scraper.get] *)
| DatabaseError (msg : string).  (* raised by the session *)

Inductive result (A : Type) : Type :=
| Ok (a : A)
| Raise (e : exn).
Arguments Ok {A} a.
Arguments Raise {A} e.

(** [xs[0]] *)
Definition first {A} (xs : list A) : result A :=
  match xs with
  | x :: _ => Ok x
  | [] => Raise IndexError
  end.

(** Modelled from the spec: [Bid.Site] is declared in bid.py, which is not
    among the sources; the scraper uses its member [CITYOFBOSTON] and the
    member's [name]. *)
Inductive Site : Type := CITYOFBOSTON.

Definition Site_name (s : Site) : string :=
  match s with CITYOFBOSTON => "CITYOFBOSTON" end.

(** Modelled from the spec: [Bid] is declared in bid.py, which is not among
    the sources; the record holds the four keyword arguments the scraper
    passes to its constructor. *)
Record Bid : Type := mkBid {
  identifier : string;
  description : string;
  items : list string;
  site : string
}.

(** The body of a response, as [html.fromstring] sees it: markup, of which
    it builds the tree, or a body that holds no element at all (empty, or
    whitespace only), on which it raises [ParserError: Document is empty]. *)
Inductive body : Type :=
| Markup (root : element)
| Blank.

(** [html.fromstring(page_str)] *)
Definition html_fromstring (page_str : body) : result element :=
  match page_str with
  | Markup root => Ok root
  | Blank => Raise ParserError
  end.

(** What [scraper.get] returns; only [content] is read. *)
Record Response : Type := mkResponse { content : body }.

(** [get_site(self)] *)
Definition get_site : Site := CITYOFBOSTON.

(* ================================================================== *)
(** ** The two page scrapers *)

(** [scrape_results_page(self, page_str)] *)
Definition scrape_results_page (page_str : body) : result (list string) :=
  match html_fromstring page_str with
  | Raise e => Raise e
  | Ok tree =>
      let bid_id_urls := XPath.attr_of_child_of "b" "a" "href" tree in
      Ok (flat_map
            (fun bid_id_url =>
               match get_bid_id bid_id_url with
               | None => []
               | Some bid_id =>
                   [PyStr.strip (PyStr.join "" (PyStr.chars bid_id))]
               end)
            bid_id_urls)
  end.

(** [scrape_bid_page(self, page, bid_id)] *)
Definition scrape_bid_page (page : Response) (bid_id : string) : result Bid :=
  match html_fromstring (content page) with
  | Raise e => Raise e
  | Ok tree =>
      match first (XPath.descendant_or_self "center" tree) with
      | Raise e => Raise e
      | Ok first_center =>
          match first (XPath.child "b" first_center) with
          | Raise e => Raise e
          | Ok start_text_element =>
              match text start_text_element with
              | None => Raise AttributeError
              | Some t =>
                  let description := PyStr.strip t in
                  let items :=
                    [PyStr.join "" (XPath.text_nodes first_center)] in
                  Ok (mkBid bid_id description items (Site_name get_site))
              end
          end
      end
  end.

(* ================================================================== *)
(** ** The world of a run, and the monad of the coordinator thread *)

(** The records the module's logger receives. *)
Inductive LogRecord : Type :=
| Info_found_bid_ids (bid_ids : list string)  (* [log.info("Found bid ids: {}")] *)
| Error_exception (exc : exn)                 (* [log.error("Exception: {}")] *)
| Info_found_new_bid (bid : Bid).             (* [log.info("Found new bid: {}")] *)

(** What the coordinator thread does to its collaborators, in program order.
    [Submit bid_id] hands [get_details_for_bid(scraper, bid_id)] to the pool:
    the GET of that detail page is made by a worker, after this event, and
    only submitted tasks ever run. *)
Inductive Event : Type :=
| Get (url : string) (params : list (string * string))
| QueryNew (bid_ids : list string) (s : Site)
| Submit (bid_id : string)
| Commit.

Record World : Type := mkWorld {
  db : list Bid;        (* the committed rows *)
  session : list Bid;   (* [session.add]ed, not yet committed *)
  log : list LogRecord;
  trace : list Event
}.

(** The outcome of a pool task: what [future.result()] returns or raises. *)
Definition Future : Type := result (Response * string).

(** The collaborators a run talks to.
    - [scraper_get url params] is the outcome of [scraper.get(url, params)].
    - [get_new_identifiers] is imported from bid.py, which is not among the
      sources: it is a parameter of the run, given the committed rows.
    - [as_completed fs] is the order in which [as_completed(fs)] yields the
      futures of the pool: a matter of scheduling, fixed by the environment.
    - [commit_error pending] is the exception [session.commit()] raises, if
      any, when it writes [pending]. *)
Record Env : Type := mkEnv {
  scraper_get : string -> list (string * string) -> result Response;
  get_new_identifiers : list Bid -> list string -> Site -> result (list string);
  as_completed : list Future -> list Future;
  commit_error : list Bid -> option exn
}.

Definition M (A : Type) : Type := World -> result A * World.

Definition ret {A} (a : A) : M A := fun w => (Ok a, w).

Definition bind {A B} (c : M A) (k : A -> M B) : M B :=
  fun w =>
    match c w with
    | (Ok a, w') => k a w'
    | (Raise e, w') => (Raise e, w')
    end.

Notation "x <- c1 ;; c2" := (bind c1 (fun x => c2))
  (at level 61, c1 at next level, right associativity).
Notation "c1 ;; c2" := (bind c1 (fun _ => c2))
  (at level 61, right associativity).

(** A call that may raise, made from the coordinator. *)
Definition lift {A} (r : result A) : M A := fun w => (r, w).

Definition emit (ev : Event) : M unit :=
  fun w => (Ok tt, mkWorld (db w) (session w) (log w) (trace w ++ [ev])).

Definition log_record (r : LogRecord) : M unit :=
  fun w => (Ok tt, mkWorld (db w) (session w) (log w ++ [r]) (trace w)).

(** [session = Session()]: a new session holds no pending object. *)
Definition Session_new : M unit :=
  fun w => (Ok tt, mkWorld (db w) [] (log w) (trace w)).

(** [session.add(bid)] *)
Definition session_add (bid : Bid) : M unit :=
  fun w => (Ok tt, mkWorld (db w) (session w ++ [bid]) (log w) (trace w)).

(** [session.commit()] *)
Definition session_commit (env : Env) : M unit :=
  emit Commit ;;
  (fun w =>
     match commit_error env (session w) with
     | Some e => (Raise e, w)
     | None => (Ok tt, mkWorld (db w ++ session w) [] (log w) (trace w))
     end).

Fixpoint map_M {A B} (f : A -> M B) (xs : list A) : M (list B) :=
  match xs with
  | [] => ret []
  | x :: rest => y <- f x ;; ys <- map_M f rest ;; ret (y :: ys)
  end.

(** [for x in xs: body(x)] *)
Fixpoint for_each {A} (xs : list A) (body : A -> M unit) : M unit :=
  match xs with
  | [] => ret tt
  | x :: rest => body x ;; for_each rest body
  end.

(* ================================================================== *)
(** ** CityOfBostonScraper *)

Definition results_url : string :=
  "https://www.cityofboston.gov/purchasing/bid.asp".
Definition details_url : string :=
  "https://www.cityofboston.gov/purchasing/bids.asp".

(** [get_details_for_bid(self, scraper, bid_id)]: runs in a worker. *)
Definition get_details_for_bid (env : Env) (bid_id : string) : Future :=
  match scraper_get env details_url [("ID", bid_id)] with
  | Ok page => Ok (page, bid_id)
  | Raise e => Raise e
  end.

(** [executor.submit(self.get_details_for_bid, scraper, bid_id)] *)
Definition executor_submit (env : Env) (bid_id : string) : M Future :=
  emit (Submit bid_id) ;; ret (get_details_for_bid env bid_id).

(** The body of the loop over [as_completed(futures)]: the [try] covers
    [future.result()] only, the [else] branch runs outside it. *)
Definition handle_future (future : Future) : M unit :=
  match future with
  | Raise exc => log_record (Error_exception exc)
  | Ok (bid_page, bid_id) =>
      bid <- lift (scrape_bid_page bid_page bid_id) ;;
      log_record (Info_found_new_bid bid) ;;
      session_add bid
  end.

(** [process_new_bids(self, new_ids, session, scraper)]: one task per new
    identifier is submitted to the pool, then the loop handles the futures
    in the order [as_completed] yields them.  Leaving the [with] block
    waits for the workers and changes nothing the coordinator sees. *)
Definition process_new_bids (env : Env) (new_ids : list string) : M unit :=
  futures <- map_M (executor_submit env) new_ids ;;
  for_each (as_completed env futures) handle_future.

(** [scrape(self)] *)
Definition scrape (env : Env) : M unit :=
  Session_new ;;
  emit (Get results_url []) ;;
  page <- lift (scraper_get env results_url []) ;;
  bid_ids <- lift (scrape_results_page (content page)) ;;
  log_record (Info_found_bid_ids bid_ids) ;;
  emit (QueryNew bid_ids get_site) ;;
  new_ids <- (fun w => (get_new_identifiers env (db w) bid_ids get_site, w)) ;;
  process_new_bids env new_ids ;;
  session_commit env.

(* ================================================================== *)
(** ** The thread pool, and the harvester step by step

    Modelled from the standard library: [concurrent.futures] is not part of
    the repository.  What [process_new_bids] uses of it is this.
    [executor.submit] puts a work item on the queue and, inside that call
    and nowhere else, may start one more worker thread, only while fewer
    than [max_workers] exist (whether it starts one while an older worker
    is idle differs between Python versions: the model leaves that choice
    open).  A worker takes one item at a time from the head of the queue,
    runs it, and comes back for the next.  [as_completed] yields, one at a
    time, futures that are done. *)

Module Pool.

Section Executor.

Variable T : Type.   (* a work item *)

Record Executor : Type := mkExecutor {
  max_workers : nat;
  work_queue : list T;
  threads : list (option T)   (* per worker: idle, or the item it runs *)
}.

Definition ThreadPoolExecutor (n : nat) : Executor :=
  mkExecutor n [] [].

Fixpoint set_nth {A} (i : nat) (x : A) (l : list A) : list A :=
  match l, i with
  | [], _ => []
  | _ :: rest, 0 => x :: rest
  | y :: rest, S j => y :: set_nth j x rest
  end.

Fixpoint remove_nth {A} (i : nat) (l : list A) : list A :=
  match l, i with
  | [], _ => []
  | _ :: rest, 0 => rest
  | y :: rest, S j => y :: remove_nth j rest
  end.

(** [executor.submit(item)]; [None] when a worker is to be started and
    [max_workers] already exist. *)
Definition submit (start_worker : bool) (item : T) (ex : Executor)
    : option Executor :=
  if start_worker then
    if List.length (threads ex) <? max_workers ex
    then Some (mkExecutor (max_workers ex) (work_queue ex ++ [item])
                 (threads ex ++ [None]))
    else None
  else Some (mkExecutor (max_workers ex) (work_queue ex ++ [item])
               (threads ex)).

(** Worker [i], idle, takes the item at the head of the queue. *)
Definition take (i : nat) (ex : Executor) : option Executor :=
  match nth_error (threads ex) i, work_queue ex with
  | Some None, item :: queue =>
      Some (mkExecutor (max_workers ex) queue
              (set_nth i (Some item) (threads ex)))
  | _, _ => None
  end.

(** Worker [i] is through with the item it runs. *)
Definition finish (i : nat) (ex : Executor) : option (T * Executor) :=
  match nth_error (threads ex) i with
  | Some (Some item) =>
      Some (item, mkExecutor (max_workers ex) (work_queue ex)
                    (set_nth i None (threads ex)))
  | _ => None
  end.

(** The work items running at this instant. *)
Definition in_flight (ex : Executor) : list T :=
  flat_map (fun w => match w with Some t => [t] | None => [] end) (threads ex).

End Executor.

Arguments mkExecutor {T}.
Arguments max_workers {T}.
Arguments work_queue {T}.
Arguments threads {T}.
Arguments ThreadPoolExecutor {T}.
Arguments submit {T}.
Arguments take {T}.
Arguments finish {T}.
Arguments in_flight {T}.

End Pool.

(** A moment of [process_new_bids].  The work item of the pool is the call
    [get_details_for_bid(scraper, bid_id)], named by its [bid_id]: the fetch
    alone.  The page it returns is parsed later, by the loop of the
    coordinator. *)
Record Harvest : Type := mkHarvest {
  to_submit : list string;          (* identifiers not yet submitted *)
  executor : Pool.Executor string;
  completed : list string;          (* futures done, not yet yielded *)
  yielded : list string;            (* futures the loop has taken, in order *)
  stopped : option exn;             (* the exception that left the loop *)
  world : World
}.

(** What can happen next. *)
Inductive move : Type :=
| Submits (start_worker : bool)
    (* the coordinator submits the next identifier (lines 59-62) *)
| Takes (worker : nat)
    (* a worker starts the fetch of the next queued identifier *)
| Finishes (worker : nat)
    (* its fetch returned or raised: the future is done *)
| Handles (k : nat).
    (* [as_completed] yields the [k]-th done future and the loop body runs
       on it (lines 63-71); the loop starts once everything is submitted *)

(** [with ThreadPoolExecutor(max_workers=NUMBER_OF_THREADS) as executor] *)
Definition harvest_start (new_ids : list string) (w : World) : Harvest :=
  mkHarvest new_ids (Pool.ThreadPoolExecutor NUMBER_OF_THREADS) [] [] None w.

Definition harvest_step (env : Env) (m : move) (h : Harvest)
    : option Harvest :=
  match m with
  | Submits start_worker =>
      match to_submit h with
      | bid_id :: rest =>
          match Pool.submit start_worker bid_id (executor h) with
          | Some ex =>
              Some (mkHarvest rest ex (completed h) (yielded h) (stopped h)
                      (snd (executor_submit env bid_id (world h))))
          | None => None
          end
      | [] => None
      end
  | Takes i =>
      match Pool.take i (executor h) with
      | Some ex =>
          Some (mkHarvest (to_submit h) ex (completed h) (yielded h)
                  (stopped h) (world h))
      | None => None
      end
  | Finishes i =>
      match Pool.finish i (executor h) with
      | Some (bid_id, ex) =>
          Some (mkHarvest (to_submit h) ex (completed h ++ [bid_id])
                  (yielded h) (stopped h) (world h))
      | None => None
      end
  | Handles k =>
      match to_submit h, stopped h, nth_error (completed h) k with
      | [], None, Some bid_id =>
          let (r, w') :=
            handle_future (get_details_for_bid env bid_id) (world h) in
          Some (mkHarvest [] (executor h)
                  (Pool.remove_nth k (completed h)) (yielded h ++ [bid_id])
                  (match r with Ok _ => None | Raise e => Some e end) w')
      | _, _, _ => None
      end
  end.

Fixpoint harvest_run (env : Env) (moves : list move) (h : Harvest)
    : option Harvest :=
  match moves with
  | [] => Some h
  | m :: rest =>
      match harvest_step env m h with
      | Some h' => harvest_run env rest h'
      | None => None
      end
  end.

(** The detail fetches running at this instant. *)
Definition fetches_in_flight (h : Harvest) : list string :=
  Pool.in_flight (executor h).

(** The identifiers whose fetch-then-parse has begun and is not over: the
    page is being fetched, or it is fetched and the loop has not yet taken
    it. *)
Definition in_progress (h : Harvest) : list string :=
  Pool.in_flight (executor h) ++ completed h.

(** The environment in which [as_completed] yields the futures of these
    identifiers, in this order. *)
Definition with_order (env : Env) (ids : list string) : Env :=
  mkEnv (scraper_get env) (get_new_identifiers env)
    (fun _ => map (get_details_for_bid env) ids) (commit_error env).

(** What every moment of a harvest keeps: the pool has the size the module
    gives it and never more workers than that, and it only holds
    identifiers it was given. *)
Definition harvest_invariant (new_ids : list string) (h : Harvest) : Prop :=
  Pool.max_workers (executor h) = NUMBER_OF_THREADS
  /\ List.length (Pool.threads (executor h)) <= NUMBER_OF_THREADS
  /\ (forall i, In i (to_submit h) -> In i new_ids)
  /\ (forall i, In i (Pool.work_queue (executor h)) -> In i new_ids)
  /\ (forall i, In (Some i) (Pool.threads (executor h)) -> In i new_ids).

(* ================================================================== *)
(** ** Reading a run: what was logged, submitted, added *)

(** The records of [log.error] among the log. *)
Definition errors_logged (l : list LogRecord) : list exn :=
  flat_map (fun r => match r with Error_exception e => [e] | _ => [] end) l.

Definition is_commit (ev : Event) : bool :=
  match ev with Commit => true | _ => false end.
Definition is_query (ev : Event) : bool :=
  match ev with QueryNew _ _ => true | _ => false end.

(** The identifiers whose detail task was handed to the pool. *)
Definition submitted (evs : list Event) : list string :=
  flat_map (fun ev => match ev with Submit i => [i] | _ => [] end) evs.

(** The world after [scrape] ran in [env] from [w]. *)
Definition after (env : Env) (w : World) : World := snd (scrape env w).

(** The events a run adds to the trace. *)
Definition run_events (env : Env) (w : World) : list Event :=
  skipn (List.length (trace w)) (trace (after env w)).

(** A future whose fetch raised. *)
Definition fetch_failed (future : Future) : bool :=
  match future with Raise _ => true | Ok _ => false end.

(** A future whose page was fetched and parses: the bid it yields. *)
Definition bid_of (future : Future) : list Bid :=
  match future with
  | Ok (bid_page, bid_id) =>
      match scrape_bid_page bid_page bid_id with
      | Ok bid => [bid]
      | Raise _ => []
      end
  | Raise _ => []
  end.

(** The record a future leaves in the log when the loop handles it. *)
Definition log_of (future : Future) : list LogRecord :=
  match future with
  | Raise exc => [Error_exception exc]
  | Ok (bid_page, bid_id) =>
      match scrape_bid_page bid_page bid_id with
      | Ok bid => [Info_found_new_bid bid]
      | Raise _ => []
      end
  end.

(** The exception [scrape_bid_page] raises on the page of a future. *)
Definition parse_error (future : Future) : option exn :=
  match future with
  | Ok (bid_page, bid_id) =>
      match scrape_bid_page bid_page bid_id with
      | Ok _ => None
      | Raise e => Some e
      end
  | Raise _ => None
  end.

(** The futures the loop handles before it stops, and the exception that
    stops it: the first future, in completion order, whose page does not
    parse. *)
Fixpoint handled (fs : list Future) : list Future * option exn :=
  match fs with
  | [] => ([], None)
  | f :: rest =>
      match parse_error f with
      | Some e => ([], Some e)
      | None => let (h, stop) := handled rest in (f :: h, stop)
      end
  end.

(** How the loop ends: normally, or with the exception that stopped it. *)
Definition outcome (stop : option exn) : result unit :=
  match stop with
  | None => Ok tt
  | Some e => Raise e
  end.

(** The pool completes each future it was given exactly once. *)
Definition completes_each_once (env : Env) : Prop :=
  forall fs : list Future, Permutation fs (as_completed env fs).

(* ================================================================== *)
(** ** The statements of the specification *)

(** The detail-link rule in the specification's words: the href begins with
    [bids.asp?ID=], at least one decimal digit follows, and the identifier
    is the maximal run of digits there. *)
Definition detail_link_id (href : string) : option string :=
  match PyStr.strip_prefix "bids.asp?ID=" href with
  | Some rest =>
      if PyStr.starts_with PyStr.is_digit rest
      then Some (PyStr.take_while PyStr.is_digit rest)
      else None
  | None => None
  end.

(** Modelled from the spec: [get_new_identifiers] of bid.py, which is not
    among the sources.  Given the candidate identifiers and a site it returns
    the set of those not yet recorded for the site; the set is a list
    without repetition. *)
Definition filter_new (rows : list Bid) (candidates : list string) (s : Site)
    : result (list string) :=
  let known i :=
    existsb (fun b => String.eqb (identifier b) i
                      && String.eqb (site b) (Site_name s)) rows in
  Ok (nodup string_dec (filter (fun i => negb (known i)) candidates)).

(* ================================================================== *)
(** ** Fixtures *)

Definition leaf (t : string) (a : list (string * string)) (x : option string)
    (tl : option string) : element :=
  Element t a x [] tl.

(** A listing page with the links [bids.asp?ID=101], [bids.asp?ID=202] and
    [home.asp], each an anchor inside a bold element. *)
Definition listing_fixture : element :=
  Element "html" [] None
    [Element "body" [] None
       [Element "table" [] None
          [Element "tr" [] None
             [Element "td" [] None
                [Element "b" [] None
                   [leaf "a" [("href", "bids.asp?ID=101")] (Some "Snow Removal") None]
                   None] None] None;
           Element "tr" [] None
             [Element "td" [] None
                [Element "b" [] None
                   [leaf "a" [("href", "bids.asp?ID=202")] (Some "Road Salt") None]
                   None] None] None;
           Element "tr" [] None
             [Element "td" [] None
                [Element "b" [] None
                   [leaf "a" [("href", "home.asp")] (Some "Home") None]
                   None] None] None]
          None]
       None]
    None.

(** A listing page with a repeated link and nested bold elements. *)
Definition listing_repeat_fixture : element :=
  Element "body" [] None
    [Element "b" [] None
       [leaf "a" [("href", "bids.asp?ID=7")] None None;
        Element "b" [] None
          [leaf "a" [("href", "bids.asp?ID=8")] None None] None;
        leaf "a" [("href", "bids.asp?ID=7")] None None]
       None;
     leaf "a" [("href", "bids.asp?ID=9")] None None]
    None.

(** A page without any link. *)
Definition listing_empty_fixture : element :=
  Element "html" [] None [Element "body" [] (Some "No open bids") [] None] None.

(** The tree of [<center><b>Snow Removal</b> Contract for winter 2024</center>]:
    the text after [</b>] is the tail of the bold element. *)
Definition snow_center : element :=
  Element "center" [] None
    [leaf "b" [] (Some "Snow Removal") (Some " Contract for winter 2024")]
    None.

(** A detail page whose first centered block is [snow_center]. *)
Definition detail_tree : element :=
  Element "html" [] None
    [Element "body" [] None
       [snow_center;
        Element "center" [] (Some "City of Boston") [] None]
       None]
    None.

Definition detail_fixture : Response := mkResponse (Markup detail_tree).

(** A detail page without any centered block. *)
Definition detail_without_center : Response :=
  mkResponse
    (Markup
       (Element "html" [] None
          [Element "body" [] None [leaf "p" [] (Some "Moved") None] None]
          None)).

(** A response with an empty body. *)
Definition empty_response : Response := mkResponse Blank.

(** The bid every parseable fixture page yields for an identifier. *)
Definition snow_bid (bid_id : string) : Bid :=
  mkBid bid_id "Snow Removal" [" Contract for winter 2024"] "CITYOFBOSTON".

(** Detail pages: every identifier has the snow-removal page. *)
Definition all_pages_ok (i : string) : result Response := Ok detail_fixture.

(** Detail pages: the fetch for 202 raises. *)
Definition fetch_202_fails (i : string) : result Response :=
  if String.eqb i "202" then Raise (TransportError "timeout")
  else Ok detail_fixture.

(** Detail pages: the page of 101 has no centered block. *)
Definition page_101_unparseable (i : string) : result Response :=
  if String.eqb i "101" then Ok detail_without_center else Ok detail_fixture.

(** An environment made of a listing response, a detail response per
    identifier and a completion order; the dedup query is [filter_new] and
    the commit succeeds. *)
Definition fixture_env (listing : result Response)
    (detail : string -> result Response)
    (order : list Future -> list Future) : Env :=
  mkEnv
    (fun url params =>
       if String.eqb url results_url then listing
       else match attrib_get "ID" params with
            | Some i => detail i
            | None => Raise (TransportError "404")
            end)
    filter_new order (fun _ => None).

(** The environments of the examples: the listing fixture, a choice of
    detail pages, futures completing in submission order or in the reverse
    order. *)
Definition env_all_ok : Env :=
  fixture_env (Ok (mkResponse (Markup listing_fixture))) all_pages_ok (fun fs => fs).
Definition env_fetch_202_fails : Env :=
  fixture_env (Ok (mkResponse (Markup listing_fixture))) fetch_202_fails (@rev Future).
Definition env_page_101_unparseable : Env :=
  fixture_env (Ok (mkResponse (Markup listing_fixture))) page_101_unparseable
    (fun fs => fs).
Definition env_listing_fails : Env :=
  fixture_env (Raise (TransportError "connection refused")) all_pages_ok
    (fun fs => fs).
Definition env_nothing_listed : Env :=
  fixture_env (Ok (mkResponse (Markup listing_empty_fixture))) all_pages_ok
    (fun fs => fs).

Definition empty_world : World := mkWorld [] [] [] [].

(** Twenty new identifiers. *)
Definition twenty_ids : list string :=
  ["1"; "2"; "3"; "4"; "5"; "6"; "7"; "8"; "9"; "10";
   "11"; "12"; "13"; "14"; "15"; "16"; "17"; "18"; "19"; "20"].

(* ================================================================== *)
(** ** Further notions used by the properties of the harvester, the run
    and the pool *)

(** The bids the log announces with [Found new bid], in order. *)
Definition found_logged (l : list LogRecord) : list Bid :=
  flat_map (fun r => match r with Info_found_new_bid b => [b] | _ => [] end) l.

(** Whether the committed rows hold a bid of the site with that identifier:
    the pair the dedup query is asked about is [(site, identifier)], and a
    bid stores the site by its name. *)
Definition recorded (rows : list Bid) (s : Site) (i : string) : bool :=
  existsb (fun b => String.eqb (identifier b) i
                    && String.eqb (site b) (Site_name s)) rows.

(** The dedup query only returns candidates it was given. *)
Definition dedup_selects (env : Env) : Prop :=
  forall rows candidates s new_ids,
    get_new_identifiers env rows candidates s = Ok new_ids ->
    forall i, In i new_ids -> In i candidates.

(** The dedup query returns exactly the candidates that are not recorded
    for the site. *)
Definition dedup_exact (env : Env) : Prop :=
  forall rows candidates s new_ids,
    get_new_identifiers env rows candidates s = Ok new_ids ->
    forall i, In i new_ids <-> In i candidates /\ recorded rows s i = false.

(** Detail pages: no fetch succeeds. *)
Definition no_page_reachable (i : string) : result Response :=
  Raise (TransportError "timeout").

Definition env_no_page_reachable : Env :=
  fixture_env (Ok (mkResponse (Markup listing_fixture))) no_page_reachable (@rev Future).

(** A page whose first centered block has a bold lead-in in padded text and
    no free text at all. *)
Definition detail_padded : Response :=
  mkResponse
    (Markup
       (Element "html" [] None
          [Element "center" [] None
             [leaf "b" [] (Some "  Road Salt 2024
") None] None] None)).

(* ================================================================== *)
(** ** Document order, in the words of the specification *)

(** The elements of a document in document order (an element before its
    descendants, siblings from left to right), each with the tag of its
    parent; the root has none. *)
Fixpoint in_document_order (parent : option string) (e : element)
    : list (option string * element) :=
  match e with
  | Element t _ _ cs _ =>
      (parent, e) :: flat_map (in_document_order (Some t)) cs
  end.

(** An anchor directly inside a bold element. *)
Definition is_bold_anchor (pe : option string * element) : bool :=
  match fst pe with
  | Some parent => String.eqb parent "b" && String.eqb (tag (snd pe)) "a"
  | None => false
  end.

(** The hrefs of the anchors nested in bold elements, in document order;
    an anchor without [href] has none. *)
Definition bold_anchor_hrefs (root : element) : list string :=
  flat_map (fun a => option_list (attrib_get "href" (attrib a)))
    (map snd (filter is_bold_anchor (in_document_order None root))).

(** The listing page answers with an empty body. *)
Definition env_listing_blank : Env :=
  fixture_env (Ok empty_response) all_pages_ok (fun fs => fs).

(** A harvest of twenty identifiers in which the loop lags behind the
    pool: all are submitted (five workers started), fifteen fetches are
    through and the loop has taken none of their pages yet, five more
    fetches are running. *)
Definition lagging_schedule : list move :=
  repeat (Submits true) 5 ++ repeat (Submits false) 15
    ++ List.concat (repeat (map Takes [0; 1; 2; 3; 4]
                         ++ map Finishes [0; 1; 2; 3; 4]) 3)
    ++ map Takes [0; 1; 2; 3; 4].

Definition lagging_harvest : Harvest :=
  match harvest_run env_all_ok lagging_schedule
          (harvest_start twenty_ids empty_world) with
  | Some h => h
  | None => harvest_start twenty_ids empty_world
  end.

(** The same harvest brought to its end: the five last fetches are through
    and the loop has handled the twenty pages, last fetched first. *)
Definition complete_schedule : list move :=
  lagging_schedule ++ map Finishes [0; 1; 2; 3; 4]
    ++ map Handles (rev (seq 0 20)).

Definition complete_harvest : Harvest :=
  match harvest_run env_all_ok complete_schedule
          (harvest_start twenty_ids empty_world) with
  | Some h => h
  | None => harvest_start twenty_ids empty_world
  end.

(** What the world of a harvest is at every moment, in terms of the loop of
    [process_new_bids]: the identifiers submitted so far are recorded, and
    the session and the log are what the loop makes of the futures it has
    taken, in the order it took them. *)
Definition harvest_agrees (env : Env) (new_ids : list string) (w : World)
    (h : Harvest) : Prop :=
  exists submitted_ids : list string,
    new_ids = submitted_ids ++ to_submit h
    /\ world h
       = mkWorld (db w)
           (session w
              ++ flat_map bid_of
                   (fst (handled (map (get_details_for_bid env) (yielded h)))))
           (log w
              ++ flat_map log_of
                   (fst (handled (map (get_details_for_bid env) (yielded h)))))
           (trace w ++ map Submit submitted_ids)
    /\ stopped h
       = snd (handled (map (get_details_for_bid env) (yielded h))).

(* ================================================================== *)
(** * Properties *)

(** ** Strings *)

Section StringFacts.

Variable p : ascii -> bool.

Lemma take_drop_while (s : string) :
  (PyStr.take_while p s ++ PyStr.drop_while p s)%string = s.
Proof.
  induction s as [|c s IH]; simpl; [reflexivity|].
  destruct (p c); simpl; [now rewrite IH | reflexivity].
Qed.

Lemma take_while_all (s : string) :
  PyStr.all_chars p (PyStr.take_while p s) = true.
Proof.
  induction s as [|c s IH]; simpl; [reflexivity|].
  destruct (p c) eqn:E; simpl; [now rewrite E | reflexivity].
Qed.

Lemma drop_while_stops (s : string) :
  PyStr.starts_with p (PyStr.drop_while p s) = false.
Proof.
  induction s as [|c s IH]; simpl; [reflexivity|].
  destruct (p c) eqn:E; simpl; assumption.
Qed.

(** A run of [p]-characters followed by something that does not start with
    one is the maximal run. *)
Lemma take_while_app (run rest : string) :
  PyStr.all_chars p run = true ->
  PyStr.starts_with p rest = false ->
  PyStr.take_while p (run ++ rest)%string = run.
Proof.
  induction run as [|c run IH]; simpl; intros Hall Hrest.
  - destruct rest as [|c r]; simpl in *; [reflexivity | now rewrite Hrest].
  - apply andb_true_iff in Hall as [Hc Hall]. rewrite Hc.
    now rewrite IH.
Qed.

Lemma take_while_length (s : string) :
  String.length s - String.length (PyStr.drop_while p s)
  = String.length (PyStr.take_while p s)
  /\ String.length (PyStr.drop_while p s) <= String.length s.
Proof.
  induction s as [|c s [IH1 IH2]]; simpl; [split; reflexivity|].
  destruct (p c); simpl.
  - split; [|lia].
    rewrite <- IH1. destruct (String.length (PyStr.drop_while p s)) eqn:E; lia.
  - split; [|lia]. rewrite Nat.sub_diag. reflexivity.
Qed.

Lemma substring_take_while (s : string) :
  substring 0 (String.length (PyStr.take_while p s)) s = PyStr.take_while p s.
Proof.
  induction s as [|c s IH]; simpl; [reflexivity|].
  destruct (p c); simpl; [now rewrite IH | reflexivity].
Qed.

End StringFacts.

Lemma strip_prefix_app (pre s : string) :
  PyStr.strip_prefix pre (pre ++ s)%string = Some s.
Proof.
  induction pre as [|c pre IH]; simpl; [reflexivity|].
  now rewrite Ascii.eqb_refl.
Qed.

Lemma strip_prefix_inv (pre s rest : string) :
  PyStr.strip_prefix pre s = Some rest -> s = (pre ++ rest)%string.
Proof.
  revert s; induction pre as [|c pre IH]; simpl; intros s H.
  - now inversion H.
  - destruct s as [|d s]; [discriminate|].
    destruct (Ascii.eqb c d) eqn:E; [|discriminate].
    apply Ascii.eqb_eq in E; subst d. f_equal. now apply IH.
Qed.

Lemma strip_prefix_cat (p1 p2 s : string) :
  PyStr.strip_prefix (p1 ++ p2)%string s
  = match PyStr.strip_prefix p1 s with
    | Some rest => PyStr.strip_prefix p2 rest
    | None => None
    end.
Proof.
  revert s; induction p1 as [|c p1 IH]; simpl; intros s; [reflexivity|].
  destruct s as [|d s].
  - destruct (p1 ++ p2)%string; reflexivity.
  - destruct (Ascii.eqb c d); [apply IH | reflexivity].
Qed.

Lemma join_chars (s : string) : PyStr.join "" (PyStr.chars s) = s.
Proof.
  induction s as [|c s IH]; [reflexivity|].
  simpl PyStr.chars. destruct s as [|d s]; [reflexivity|].
  change (PyStr.join "" (String c "" :: PyStr.chars (String d s)))
    with (String c "" ++ "" ++ PyStr.join "" (PyStr.chars (String d s)))%string.
  rewrite IH. reflexivity.
Qed.

Lemma digit_not_space (c : ascii) :
  PyStr.is_digit c = true -> PyStr.is_space c = false.
Proof.
  destruct c as [[|] [|] [|] [|] [|] [|] [|] [|]];
    vm_compute; intros H; congruence.
Qed.

(** [strip] leaves a string of digits alone. *)
Lemma strip_digits (s : string) :
  PyStr.all_chars PyStr.is_digit s = true -> PyStr.strip s = s.
Proof.
  intros H. unfold PyStr.strip.
  assert (L : PyStr.lstrip s = s).
  { destruct s as [|c s]; [reflexivity|]. simpl in *.
    apply andb_true_iff in H as [Hc _].
    now rewrite (digit_not_space _ Hc). }
  rewrite L. clear L.
  induction s as [|c s IH]; [reflexivity|]. simpl in *.
  apply andb_true_iff in H as [Hc Hs]. rewrite (IH Hs).
  destruct s; [now rewrite (digit_not_space _ Hc) | reflexivity].
Qed.

(** ** The detail-link pattern *)

Lemma run_lits (pre s : string) gs k :
  Re.run (Re.lits pre) s gs k
  = match PyStr.strip_prefix pre s with
    | Some rest => k rest gs
    | None => None
    end.
Proof.
  revert s; induction pre as [|c pre IH]; simpl; intros s; [reflexivity|].
  destruct s as [|d s]; [reflexivity|].
  destruct (Ascii.eqb c d); [apply IH | reflexivity].
Qed.

Lemma run_cat (r1 r2 : Re.regex) (s : string) gs k :
  Re.run (Re.Cat r1 r2) s gs k
  = Re.run r1 s gs (fun rest gs' => Re.run r2 rest gs' k).
Proof. reflexivity. Qed.

Lemma run_lit (c : ascii) (s : string) gs k :
  Re.run (Re.Atom (Re.Lit c)) s gs k
  = match PyStr.strip_prefix (String c "") s with
    | Some rest => k rest gs
    | None => None
    end.
Proof.
  simpl. destruct s as [|d s]; [reflexivity|].
  destruct (Ascii.eqb c d); reflexivity.
Qed.

(** When what follows cannot fail, the greedy loop never gives anything
    back: it stops at the first character the atom rejects. *)
Lemma star_greedy {A} (a : Re.atom) (s : string) (k : string -> option A) :
  (forall rest, k rest <> None) ->
  Re.star a s k = k (PyStr.drop_while (Re.atom_matches a) s).
Proof.
  intros Hk. induction s as [|c s IH]; simpl; [reflexivity|].
  destruct (Re.atom_matches a c); [|reflexivity].
  rewrite IH. destruct (k (PyStr.drop_while (Re.atom_matches a) s)) eqn:E;
    [reflexivity | now apply Hk in E].
Qed.

Lemma consumed_take_while (p : ascii -> bool) (s : string) :
  Re.consumed s (PyStr.drop_while p s) = PyStr.take_while p s.
Proof.
  unfold Re.consumed.
  rewrite (proj1 (take_while_length p s)). apply substring_take_while.
Qed.

(** The captured group of [(\d+)] at the end of a pattern. *)
Lemma run_digits_group (s : string) gs :
  Re.run (Re.Group (Re.Plus Re.Digit)) s gs (fun _ gs' => Some gs')
  = if PyStr.starts_with PyStr.is_digit s
    then Some (gs ++ [PyStr.take_while PyStr.is_digit s])
    else None.
Proof.
  destruct s as [|c s]; [reflexivity|].
  cbn [Re.run PyStr.starts_with Re.atom_matches].
  destruct (PyStr.is_digit c) eqn:E; [|reflexivity].
  rewrite star_greedy by discriminate.
  do 2 f_equal. f_equal.
  change (Re.atom_matches Re.Digit) with PyStr.is_digit.
  pose proof (consumed_take_while PyStr.is_digit (String c s)) as H.
  simpl in H. rewrite E in H. simpl. rewrite E. exact H.
Qed.

(** The matcher run on the compiled pattern computes the rule of the
    specification. *)
Lemma get_bid_id_refines (href : string) :
  get_bid_id href = detail_link_id href.
Proof.
  unfold detail_link_id.
  change "bids.asp?ID="
    with ("bids" ++ "." ++ "asp" ++ "?" ++ "ID=")%string.
  unfold get_bid_id, Re.match_, compiled_reg_exp.
  rewrite run_cat, run_lits, strip_prefix_cat.
  destruct (PyStr.strip_prefix "bids" href) as [r1|]; [|reflexivity].
  rewrite run_cat, run_lit, strip_prefix_cat.
  destruct (PyStr.strip_prefix "." r1) as [r2|]; [|reflexivity].
  rewrite run_cat, run_lits, strip_prefix_cat.
  destruct (PyStr.strip_prefix "asp" r2) as [r3|]; [|reflexivity].
  rewrite run_cat, run_lit, strip_prefix_cat.
  destruct (PyStr.strip_prefix "?" r3) as [r4|]; [|reflexivity].
  rewrite run_cat, run_lits.
  destruct (PyStr.strip_prefix "ID=" r4) as [r5|]; [|reflexivity].
  rewrite run_digits_group.
  destruct (PyStr.starts_with PyStr.is_digit r5); reflexivity.
Qed.

Lemma starts_with_nonempty (p : ascii -> bool) (s : string) :
  PyStr.starts_with p s = true -> PyStr.take_while p s <> EmptyString.
Proof.
  destruct s as [|c s]; simpl; [discriminate|].
  intros ->. discriminate.
Qed.

Lemma starts_with_app (p : ascii -> bool) (run rest : string) :
  run <> EmptyString -> PyStr.all_chars p run = true ->
  PyStr.starts_with p (run ++ rest)%string = true.
Proof.
  destruct run as [|c run]; [congruence|]. simpl.
  intros _ H. now apply andb_true_iff in H as [H _].
Qed.

(** C10. [get_bid_id] accepts an href exactly when the href begins with the
    literal prefix [bids.asp?ID=] followed by at least one decimal digit;
    the identifier it returns is the non-empty maximal run of digits after
    the prefix (what follows the run does not start with a digit).  The
    pattern is anchored at the start: an href with a path before the
    template is skipped. *)
Theorem get_bid_id_spec :
  (forall href : string,
      (exists ident : string, get_bid_id href = Some ident) <->
      (exists tl : string,
          href = ("bids.asp?ID=" ++ tl)%string
          /\ PyStr.starts_with PyStr.is_digit tl = true))
  /\ (forall href ident : string,
        get_bid_id href = Some ident <->
        exists rest : string,
          href = ("bids.asp?ID=" ++ ident ++ rest)%string
          /\ ident <> EmptyString
          /\ PyStr.all_chars PyStr.is_digit ident = true
          /\ PyStr.starts_with PyStr.is_digit rest = false)
  /\ get_bid_id "/purchasing/bids.asp?ID=5" = None
  /\ get_bid_id "bids.asp?ID=5" = Some "5".
Proof.
  split; [|split; [|split; reflexivity]].
  - intros href. rewrite get_bid_id_refines. unfold detail_link_id. split.
    + intros [ident H].
      destruct (PyStr.strip_prefix "bids.asp?ID=" href) as [tl|] eqn:P;
        [|discriminate].
      destruct (PyStr.starts_with PyStr.is_digit tl) eqn:D; [|discriminate].
      exists tl. split; [now apply strip_prefix_inv | exact D].
    + intros (tl & -> & D). rewrite strip_prefix_app, D. eauto.
  - intros href ident. rewrite get_bid_id_refines. unfold detail_link_id.
    split.
    + destruct (PyStr.strip_prefix "bids.asp?ID=" href) as [tl|] eqn:P;
        [|discriminate].
      destruct (PyStr.starts_with PyStr.is_digit tl) eqn:D; [|discriminate].
      intros H; inversion H; subst ident; clear H.
      exists (PyStr.drop_while PyStr.is_digit tl).
      repeat split.
      * rewrite take_drop_while. now apply strip_prefix_inv.
      * now apply starts_with_nonempty.
      * apply take_while_all.
      * apply drop_while_stops.
    + intros (rest & -> & Hne & Hall & Hrest).
      rewrite strip_prefix_app.
      rewrite (starts_with_app _ _ _ Hne Hall).
      now rewrite take_while_app.
Qed.

(** ** The listing page *)

(** Induction on a tree, with the property known of every child. *)
Lemma element_induction (P : element -> Prop) :
  (forall t a x cs tl, Forall P cs -> P (Element t a x cs tl)) ->
  forall e, P e.
Proof.
  intros H. fix IH 1. intros [t a x cs tl]. apply H.
  induction cs as [|c cs IHcs]; constructor; [apply IH | exact IHcs].
Qed.

(** The node set of [//b/a] is the anchors with a bold parent, in document
    order. *)
Lemma child_of_below_document_order (e : element) (parent : option string) :
  map snd (filter is_bold_anchor (in_document_order parent e))
  = (if is_bold_anchor (parent, e) then [e] else [])
      ++ XPath.child_of_below "b" "a" e.
Proof.
  revert parent. induction e as [t a x cs tl IH] using element_induction.
  intros parent. cbn [in_document_order filter].
  assert (R : map snd
                (filter is_bold_anchor
                   (flat_map (in_document_order (Some t)) cs))
              = XPath.child_of_below "b" "a" (Element t a x cs tl)).
  { cbn [XPath.child_of_below].
    induction IH as [|c cs Hc _ IHcs]; [reflexivity|].
    cbn [flat_map]. rewrite filter_app, map_app, Hc, IHcs. reflexivity. }
  destruct (is_bold_anchor (parent, Element t a x cs tl));
    cbn [map snd app]; now rewrite R.
Qed.

Lemma xpath_bold_anchor_hrefs (root : element) :
  XPath.attr_of_child_of "b" "a" "href" root = bold_anchor_hrefs root.
Proof.
  unfold bold_anchor_hrefs, XPath.attr_of_child_of.
  now rewrite child_of_below_document_order.
Qed.

Lemma scrape_results_page_refines (page_str : body) (tree : element) :
  html_fromstring page_str = Ok tree ->
  scrape_results_page page_str
  = Ok (flat_map (fun href => option_list (detail_link_id href))
          (bold_anchor_hrefs tree)).
Proof.
  intros H. unfold scrape_results_page. rewrite H. cbv zeta.
  rewrite xpath_bold_anchor_hrefs. f_equal.
  apply flat_map_ext. intros href.
  rewrite get_bid_id_refines. unfold detail_link_id.
  destruct (PyStr.strip_prefix "bids.asp?ID=" href) as [tl|]; [|reflexivity].
  destruct (PyStr.starts_with PyStr.is_digit tl); [|reflexivity].
  simpl. rewrite join_chars, strip_digits; [reflexivity | apply take_while_all].
Qed.

Lemma detail_link_id_digits (href ident : string) :
  detail_link_id href = Some ident ->
  ident <> EmptyString /\ PyStr.all_chars PyStr.is_digit ident = true.
Proof.
  unfold detail_link_id.
  destruct (PyStr.strip_prefix "bids.asp?ID=" href) as [tl|]; [|discriminate].
  destruct (PyStr.starts_with PyStr.is_digit tl) eqn:D; [|discriminate].
  intros H; inversion H; subst. split.
  - now apply starts_with_nonempty.
  - apply take_while_all.
Qed.




(** Repeated links and nested bold elements; a page without any link. *)
Example scrape_results_page_repeat :
  scrape_results_page (Markup listing_repeat_fixture) = Ok ["7"; "8"; "7"]
  /\ scrape_results_page (Markup listing_empty_fixture) = Ok [].
Proof. split; reflexivity. Qed.

(** ** The detail page *)

(** C2, as amended.  When the first centered block of the page has a bold
    child with a text, [scrape_bid_page] returns the bid whose description is
    that text stripped and whose items hold one string: the concatenation of
    the text nodes that are children of the centered block (its own text and
    the tails of its children), which leaves out the text inside the bold
    lead-in. *)
Theorem scrape_bid_page_spec
    (page : Response) (bid_id : string) (tree : element)
    (first_center : element) (centers : list element)
    (b : element) (bs : list element) (t : string) :
  html_fromstring (content page) = Ok tree ->
  XPath.descendant_or_self "center" tree = first_center :: centers ->
  XPath.child "b" first_center = b :: bs ->
  text b = Some t ->
  scrape_bid_page page bid_id
  = Ok (mkBid bid_id (PyStr.strip t)
          [PyStr.join ""
             (option_list (text first_center)
                ++ flat_map (fun c => option_list (tail c))
                     (children first_center))]
          "CITYOFBOSTON").
Proof.
  intros Hp Hc Hb Ht. unfold scrape_bid_page.
  rewrite Hp, Hc. cbn [first]. rewrite Hb. cbn [first]. rewrite Ht.
  reflexivity.
Qed.

(** On the snow-removal fixture the description is the bold text and the
    single item is the text that follows the bold element. *)
Lemma scrape_bid_page_fixture :
  html_fromstring (content detail_fixture) = Ok detail_tree
  /\ XPath.descendant_or_self "center" detail_tree
     = [snow_center; Element "center" [] (Some "City of Boston") [] None]
  /\ scrape_bid_page detail_fixture "101"
     = Ok (mkBid "101" "Snow Removal" [" Contract for winter 2024"]
             "CITYOFBOSTON").
Proof.
  split; [reflexivity|]. split; [reflexivity|].
  exact (scrape_bid_page_spec detail_fixture "101" detail_tree snow_center
           _ _ _ _ eq_refl eq_refl eq_refl eq_refl).
Defined.

(** C2 as stated fails: the item of the fixture is not the bold text
    followed by the trailing text. *)
Lemma scrape_bid_page_items_not_all_text :
  scrape_bid_page detail_fixture "101"
  = Ok (mkBid "101" "Snow Removal" [" Contract for winter 2024"]
          "CITYOFBOSTON")
  /\ scrape_bid_page detail_fixture "101"
     <> Ok (mkBid "101" "Snow Removal"
              ["Snow Removal Contract for winter 2024"] "CITYOFBOSTON").
Proof.
  split; [reflexivity | discriminate].
Qed.

(** ** The harvester loop *)

Lemma world_eta (w : World) :
  mkWorld (db w) (session w) (log w) (trace w) = w.
Proof. destruct w; reflexivity. Qed.

(** Submitting never fails: it yields one future per identifier, in the
    order of the identifiers, and records the submissions. *)
Lemma map_M_submit (env : Env) (new_ids : list string) (w : World) :
  map_M (executor_submit env) new_ids w
  = (Ok (map (get_details_for_bid env) new_ids),
     mkWorld (db w) (session w) (log w) (trace w ++ map Submit new_ids)).
Proof.
  revert w; induction new_ids as [|i ids IH]; intros w.
  - simpl. unfold ret. now rewrite app_nil_r, world_eta.
  - cbn [map_M map]. unfold bind at 1.
    unfold executor_submit at 1. unfold bind at 1, emit, ret. cbn [db session log trace].
    unfold bind at 1. rewrite IH. cbn [db session log trace].
    unfold ret. now rewrite <- app_assoc.
Qed.

(** The loop handles the completed futures in order until a page fails to
    parse; that exception leaves the loop. *)
Lemma for_each_handle (fs : list Future) (w : World) :
  for_each fs handle_future w
  = (outcome (snd (handled fs)),
     mkWorld (db w)
       (session w ++ flat_map bid_of (fst (handled fs)))
       (log w ++ flat_map log_of (fst (handled fs)))
       (trace w)).
Proof.
  revert w; induction fs as [|f fs IH]; intros w.
  - simpl. unfold ret. now rewrite !app_nil_r, world_eta.
  - cbn [for_each handled]. unfold bind at 1.
    destruct f as [[bid_page bid_id]|exc].
    + unfold handle_future, parse_error, lift, bind at 1.
      destruct (scrape_bid_page bid_page bid_id) as [bid|e] eqn:P.
      * unfold bind at 1, log_record, session_add. cbn [db session log trace].
        rewrite IH. cbn [db session log trace].
        destruct (handled fs) as [h stop]. cbn [fst snd flat_map bid_of log_of].
        rewrite P. now rewrite <- !app_assoc.
      * cbn [fst snd flat_map outcome]. now rewrite !app_nil_r, world_eta.
    + unfold handle_future, parse_error, log_record. rewrite IH.
      cbn [db session log trace].
      destruct (handled fs) as [h stop]. cbn [fst snd flat_map bid_of log_of].
      now rewrite <- !app_assoc.
Qed.

(** [process_new_bids] in closed form. *)
Lemma process_new_bids_eq (env : Env) (new_ids : list string) (w : World) :
  process_new_bids env new_ids w
  = let fs := as_completed env (map (get_details_for_bid env) new_ids) in
    (outcome (snd (handled fs)),
     mkWorld (db w)
       (session w ++ flat_map bid_of (fst (handled fs)))
       (log w ++ flat_map log_of (fst (handled fs)))
       (trace w ++ map Submit new_ids)).
Proof.
  unfold process_new_bids, bind. rewrite map_M_submit.
  now rewrite for_each_handle.
Qed.

Lemma handled_all (fs : list Future) :
  (forall f, In f fs -> parse_error f = None) -> handled fs = (fs, None).
Proof.
  induction fs as [|f fs IH]; intros H; [reflexivity|].
  simpl. rewrite (H f (or_introl eq_refl)).
  rewrite IH; [reflexivity|]. intros g Hg. apply H. now right.
Qed.

Lemma handled_stops (pre post : list Future) (f : Future) (e : exn) :
  (forall g, In g pre -> parse_error g = None) ->
  parse_error f = Some e ->
  handled (pre ++ f :: post) = (pre, Some e).
Proof.
  induction pre as [|g pre IH]; intros Hpre Hf; simpl.
  - now rewrite Hf.
  - rewrite (Hpre g (or_introl eq_refl)).
    rewrite IH; [reflexivity| |assumption]. intros x Hx. apply Hpre. now right.
Qed.

(** What the loop handled is a prefix of the completed futures, none of
    which fails to parse. *)
Lemma handled_prefix (fs : list Future) :
  exists post, fs = fst (handled fs) ++ post
               /\ forall f, In f (fst (handled fs)) -> parse_error f = None.
Proof.
  induction fs as [|f fs (post & E & H)]; simpl.
  - exists []. split; [reflexivity | intros f []].
  - destruct (parse_error f) eqn:P.
    + exists (f :: fs). split; [reflexivity | intros g []].
    + destruct (handled fs) as [h stop]. simpl in *. exists post. split.
      * now rewrite <- E.
      * intros g [<-|Hg]; [assumption | now apply H].
Qed.

Lemma scrape_bid_page_identifier (page : Response) (bid_id : string) (bid : Bid) :
  scrape_bid_page page bid_id = Ok bid -> identifier bid = bid_id.
Proof.
  unfold scrape_bid_page.
  destruct (html_fromstring (content page)) as [tree|]; [|discriminate].
  destruct (first (XPath.descendant_or_self "center" tree))
    as [first_center|]; [|discriminate].
  destruct (first (XPath.child "b" first_center)) as [b|]; [|discriminate].
  destruct (text b); [|discriminate].
  intros H; inversion H; reflexivity.
Qed.

(** The future of an identifier yields no bid, or the bid parsed from the
    page fetched for that identifier. *)
Lemma bid_of_details (env : Env) (i : string) :
  bid_of (get_details_for_bid env i) = []
  \/ exists page bid,
       scraper_get env details_url [("ID", i)] = Ok page
       /\ scrape_bid_page page i = Ok bid
       /\ identifier bid = i
       /\ bid_of (get_details_for_bid env i) = [bid].
Proof.
  unfold get_details_for_bid, bid_of.
  destruct (scraper_get env details_url [("ID", i)]) as [page|e];
    [|now left].
  destruct (scrape_bid_page page i) as [bid|e] eqn:P; [|now left].
  right. exists page, bid. repeat split; try assumption.
  now apply scrape_bid_page_identifier in P.
Qed.

Lemma errors_logged_app (l1 l2 : list LogRecord) :
  errors_logged (l1 ++ l2) = errors_logged l1 ++ errors_logged l2.
Proof. apply flat_map_app. Qed.

(** The loop logs one error per future whose fetch raised. *)
Lemma errors_of_futures (fs : list Future) :
  List.length (errors_logged (flat_map log_of fs))
  = List.length (filter fetch_failed fs).
Proof.
  induction fs as [|f fs IH]; [reflexivity|].
  cbn [flat_map filter]. rewrite errors_logged_app, length_app, IH.
  destruct f as [[page i]|e]; simpl; [|reflexivity].
  destruct (scrape_bid_page page i); reflexivity.
Qed.

(** When every fetched page parses, each future yields a bid or a fetch
    failure. *)
Lemma bids_plus_failures (fs : list Future) :
  (forall f, In f fs -> parse_error f = None) ->
  List.length (flat_map bid_of fs) + List.length (filter fetch_failed fs)
  = List.length fs.
Proof.
  induction fs as [|f fs IH]; intros H; [reflexivity|].
  cbn [flat_map filter]. rewrite length_app.
  assert (Hf := H f (or_introl eq_refl)).
  assert (IH' := IH (fun g Hg => H g (or_intror Hg))).
  destruct f as [[page i]|e]; simpl in *.
  - destruct (scrape_bid_page page i); [simpl; lia | discriminate].
  - lia.
Qed.

Lemma filter_length_perm {A} (p : A -> bool) (l l' : list A) :
  Permutation l l' -> List.length (filter p l) = List.length (filter p l').
Proof.
  induction 1 as [| x l l' _ IH | x y l | l l' l'' _ IH1 _ IH2]; simpl.
  - reflexivity.
  - destruct (p x); simpl; now rewrite IH.
  - destruct (p x), (p y); reflexivity.
  - now rewrite IH1.
Qed.

Lemma filter_map_length {A B} (g : A -> B) (p : B -> bool) (l : list A) :
  List.length (filter p (map g l))
  = List.length (filter (fun a => p (g a)) l).
Proof.
  induction l as [|a l IH]; [reflexivity|]. simpl.
  destruct (p (g a)); simpl; now rewrite IH.
Qed.

(** C3. When exactly one of the [n] detail fetches raises and every fetched
    page parses, [process_new_bids] returns normally whatever the completion
    order, has added [n - 1] bids to the session (those of the other
    identifiers), has logged exactly one error, and has left the committed
    rows alone. *)
Theorem harvest_isolates_fetch_failure
    (env : Env) (new_ids : list string) (w : World) :
  completes_each_once env ->
  List.length
    (filter (fun i => fetch_failed (get_details_for_bid env i)) new_ids) = 1 ->
  (forall i, In i new_ids -> parse_error (get_details_for_bid env i) = None) ->
  exists added : list Bid,
    fst (process_new_bids env new_ids w) = Ok tt
    /\ session (snd (process_new_bids env new_ids w)) = session w ++ added
    /\ Permutation added
         (flat_map bid_of (map (get_details_for_bid env) new_ids))
    /\ List.length added = List.length new_ids - 1
    /\ List.length (errors_logged (log (snd (process_new_bids env new_ids w))))
       = List.length (errors_logged (log w)) + 1
    /\ db (snd (process_new_bids env new_ids w)) = db w.
Proof.
  intros Hperm Hone Hparse.
  set (futures := map (get_details_for_bid env) new_ids).
  assert (P : Permutation futures (as_completed env futures)) by apply Hperm.
  assert (Hall : forall f, In f (as_completed env futures) ->
                           parse_error f = None).
  { intros f Hf. apply Permutation_sym in P.
    apply (Permutation_in _ P) in Hf. apply in_map_iff in Hf as (i & <- & Hi).
    now apply Hparse. }
  rewrite process_new_bids_eq. fold futures. cbv zeta.
  rewrite (handled_all _ Hall). cbn [fst snd outcome db session log].
  exists (flat_map bid_of (as_completed env futures)).
  assert (F : List.length (filter fetch_failed (as_completed env futures)) = 1).
  { rewrite <- (filter_length_perm _ _ _ P). unfold futures.
    now rewrite filter_map_length. }
  repeat split.
  - apply Permutation_flat_map, Permutation_sym, P.
  - pose proof (bids_plus_failures _ Hall) as B. rewrite F in B.
    rewrite <- (Permutation_length P) in B. unfold futures in B at 2.
    rewrite length_map in B. lia.
  - rewrite errors_logged_app, length_app, errors_of_futures, F. reflexivity.
Qed.

(** Three new identifiers, the fetch of 202 raises, the futures complete in
    the reverse of the submission order: two bids, one logged failure. *)
Lemma harvest_isolates_fetch_failure_fixture :
  completes_each_once env_fetch_202_fails
  /\ List.length
       (filter
          (fun i => fetch_failed (get_details_for_bid env_fetch_202_fails i))
          ["101"; "202"; "303"]) = 1
  /\ (forall i, In i ["101"; "202"; "303"] ->
        parse_error (get_details_for_bid env_fetch_202_fails i) = None)
  /\ exists added : list Bid,
       fst (process_new_bids env_fetch_202_fails ["101"; "202"; "303"]
              empty_world) = Ok tt
       /\ session (snd (process_new_bids env_fetch_202_fails
                          ["101"; "202"; "303"] empty_world))
          = session empty_world ++ added
       /\ Permutation added
            (flat_map bid_of
               (map (get_details_for_bid env_fetch_202_fails)
                  ["101"; "202"; "303"]))
       /\ List.length added = List.length ["101"; "202"; "303"] - 1
       /\ List.length
            (errors_logged
               (log (snd (process_new_bids env_fetch_202_fails
                            ["101"; "202"; "303"] empty_world))))
          = List.length (errors_logged (log empty_world)) + 1
       /\ db (snd (process_new_bids env_fetch_202_fails
                     ["101"; "202"; "303"] empty_world))
          = db empty_world.
Proof.
  assert (H1 : completes_each_once env_fetch_202_fails).
  { intros fs. apply Permutation_rev. }
  assert (H2 : List.length
                 (filter
                    (fun i => fetch_failed
                                (get_details_for_bid env_fetch_202_fails i))
                    ["101"; "202"; "303"]) = 1) by reflexivity.
  assert (H3 : forall i, In i ["101"; "202"; "303"] ->
                 parse_error (get_details_for_bid env_fetch_202_fails i) = None).
  { intros i [<-|[<-|[<-|[]]]]; reflexivity. }
  split; [exact H1|]. split; [exact H2|]. split; [exact H3|].
  exact (harvest_isolates_fetch_failure env_fetch_202_fails
           ["101"; "202"; "303"] empty_world H1 H2 H3).
Defined.

Example harvest_fixture_run :
  process_new_bids env_fetch_202_fails ["101"; "202"; "303"] empty_world
  = (Ok tt,
     mkWorld [] [snow_bid "303"; snow_bid "101"]
       [Info_found_new_bid (snow_bid "303");
        Error_exception (TransportError "timeout");
        Info_found_new_bid (snow_bid "101")]
       [Submit "101"; Submit "202"; Submit "303"]).
Proof. reflexivity. Qed.

(** What the loop does with a page that fails to parse: the exception of
    the first such future, in completion order, leaves [process_new_bids].
    The session then holds the bids of the futures completed before it, the
    log their records and no record of the parse failure, and the futures
    completed after it are not looked at. *)
Lemma harvest_parse_failure_escapes
    (env : Env) (new_ids : list string) (w : World)
    (pre post : list Future) (f : Future) (e : exn) :
  as_completed env (map (get_details_for_bid env) new_ids) = pre ++ f :: post ->
  (forall g, In g pre -> parse_error g = None) ->
  parse_error f = Some e ->
  process_new_bids env new_ids w
  = (Raise e,
     mkWorld (db w)
       (session w ++ flat_map bid_of pre)
       (log w ++ flat_map log_of pre)
       (trace w ++ map Submit new_ids)).
Proof.
  intros Hfs Hpre Hf. rewrite process_new_bids_eq. cbv zeta.
  rewrite Hfs, (handled_stops pre post f e Hpre Hf). reflexivity.
Qed.

(** The identifiers 202, 101, 303 complete in that order and the page of
    101 has no centered block: the bid of 202 is in the session, the
    exception leaves the harvester, 303 is lost. *)
Lemma harvest_parse_failure_escapes_fixture :
  as_completed env_page_101_unparseable
    (map (get_details_for_bid env_page_101_unparseable) ["202"; "101"; "303"])
  = [Ok (detail_fixture, "202")] ++ Ok (detail_without_center, "101")
      :: [Ok (detail_fixture, "303")]
  /\ (forall g, In g [Ok (detail_fixture, "202")] -> parse_error g = None)
  /\ parse_error (Ok (detail_without_center, "101")) = Some IndexError
  /\ process_new_bids env_page_101_unparseable ["202"; "101"; "303"]
       empty_world
     = (Raise IndexError,
        mkWorld [] [snow_bid "202"] [Info_found_new_bid (snow_bid "202")]
          [Submit "202"; Submit "101"; Submit "303"]).
Proof.
  assert (H2 : forall g : Future,
             In g [Ok (detail_fixture, "202")] -> parse_error g = None).
  { intros g [<-|[]]. reflexivity. }
  split; [reflexivity|]. split; [exact H2|]. split; [reflexivity|].
  exact (harvest_parse_failure_escapes env_page_101_unparseable
           ["202"; "101"; "303"] empty_world
           [Ok (detail_fixture, "202")] [Ok (detail_fixture, "303")]
           (Ok (detail_without_center, "101")) IndexError
           eq_refl H2 eq_refl).
Defined.

(** C1.  What the code does where the claim fails.  The page of 101 has no
    centered block, the fetch and the parse of 202 succeed; the futures
    complete in the order 101, 202.  The claim says that the failure of 101
    is caught and logged and that the bid of 202 is returned; the code
    raises the [IndexError] of 101 out of the harvester (not the
    [ValueError] the docstring of [scrape_bid_page] announces), logs
    nothing and adds no bid for 202. *)
Lemma harvest_parse_failure_not_isolated :
  parse_error (get_details_for_bid env_page_101_unparseable "101")
  = Some IndexError
  /\ bid_of (get_details_for_bid env_page_101_unparseable "202")
     = [snow_bid "202"]
  /\ process_new_bids env_page_101_unparseable ["101"; "202"] empty_world
     = (Raise IndexError,
        mkWorld [] [] [] [Submit "101"; Submit "202"]).
Proof. repeat split. Qed.

(** ** Which bids the harvester emits *)

Lemma identifiers_of_bids (env : Env) (ids : list string) :
  map identifier (flat_map bid_of (map (get_details_for_bid env) ids))
  = filter
      (fun i => match bid_of (get_details_for_bid env i) with
                | [] => false
                | _ => true
                end)
      ids.
Proof.
  induction ids as [|i ids IH]; [reflexivity|].
  cbn [map flat_map filter]. rewrite map_app, IH.
  destruct (bid_of_details env i) as [E | (page & bid & _ & _ & Hid & E)];
    rewrite E; simpl; [reflexivity | now rewrite Hid].
Qed.

(** C5. Given a set of new identifiers, every bid [process_new_bids] adds
    to the session carries one of these identifiers, was parsed from the
    page fetched for the identifier it carries, and no two of the bids added
    carry the same identifier; this holds whatever the completion order and
    also when the harvester stops on an exception. *)
Theorem harvest_bids_are_new_and_distinct
    (env : Env) (new_ids : list string) (w : World) :
  completes_each_once env ->
  NoDup new_ids ->
  exists added : list Bid,
    session (snd (process_new_bids env new_ids w)) = session w ++ added
    /\ NoDup (map identifier added)
    /\ forall bid : Bid, In bid added ->
         In (identifier bid) new_ids
         /\ exists page : Response,
              scraper_get env details_url [("ID", identifier bid)] = Ok page
              /\ scrape_bid_page page (identifier bid) = Ok bid.
Proof.
  intros Hperm Hnodup.
  rewrite process_new_bids_eq. cbv zeta. cbn [snd session].
  set (futures := map (get_details_for_bid env) new_ids).
  destruct (handled_prefix (as_completed env futures)) as (post & Hsplit & _).
  set (h := fst (handled (as_completed env futures))) in *.
  exists (flat_map bid_of h). split; [reflexivity|].
  (* the futures handled are those of a duplicate-free list of new ids *)
  assert (P : Permutation (as_completed env futures) futures)
    by (apply Permutation_sym, Hperm).
  destruct (Permutation_map_inv _ _ P) as (ids' & Hids' & Pids).
  rewrite Hsplit in Hids'. symmetry in Hids'.
  apply map_eq_app in Hids' as (ids1 & ids2 & -> & Hh & _).
  assert (N1 : NoDup ids1).
  { apply (Permutation_NoDup Pids) in Hnodup.
    now apply NoDup_app_remove_r in Hnodup. }
  rewrite <- Hh. split.
  - rewrite identifiers_of_bids. now apply NoDup_filter.
  - intros bid Hbid. apply in_flat_map in Hbid as (f & Hf & Hbid).
    apply in_map_iff in Hf as (i & <- & Hi).
    destruct (bid_of_details env i) as [E | (page & b & Hget & Hparse & Hid & E)];
      rewrite E in Hbid; [destruct Hbid|].
    destruct Hbid as [<-|[]]. rewrite Hid. split.
    + apply Permutation_sym in Pids. apply (Permutation_in _ Pids).
      apply in_or_app. now left.
    + now exists page.
Qed.

(** The three new identifiers of the fixture, completing in reverse order
    with one failed fetch. *)
Lemma harvest_bids_are_new_and_distinct_fixture :
  completes_each_once env_fetch_202_fails
  /\ NoDup ["101"; "202"; "303"]
  /\ exists added : list Bid,
       session (snd (process_new_bids env_fetch_202_fails
                       ["101"; "202"; "303"] empty_world))
       = session empty_world ++ added
       /\ NoDup (map identifier added)
       /\ forall bid : Bid, In bid added ->
            In (identifier bid) ["101"; "202"; "303"]
            /\ exists page : Response,
                 scraper_get env_fetch_202_fails details_url
                   [("ID", identifier bid)] = Ok page
                 /\ scrape_bid_page page (identifier bid) = Ok bid.
Proof.
  assert (H1 : completes_each_once env_fetch_202_fails).
  { intros fs. apply Permutation_rev. }
  assert (H2 : NoDup ["101"; "202"; "303"]).
  { repeat constructor; simpl; intuition discriminate. }
  split; [exact H1|]. split; [exact H2|].
  exact (harvest_bids_are_new_and_distinct env_fetch_202_fails
           ["101"; "202"; "303"] empty_world H1 H2).
Defined.

(** ** The run *)

(** [scrape] in closed form: where a run can stop and what it leaves. *)
Lemma scrape_eq (env : Env) (w : World) :
  scrape env w
  = match scraper_get env results_url [] with
    | Raise e =>
        (Raise e, mkWorld (db w) [] (log w) (trace w ++ [Get results_url []]))
    | Ok page =>
        match scrape_results_page (content page) with
        | Raise e =>
            (Raise e,
             mkWorld (db w) [] (log w) (trace w ++ [Get results_url []]))
        | Ok bid_ids =>
            match get_new_identifiers env (db w) bid_ids get_site with
            | Raise e =>
                (Raise e,
                 mkWorld (db w) [] (log w ++ [Info_found_bid_ids bid_ids])
                   (trace w ++ [Get results_url [];
                                QueryNew bid_ids get_site]))
            | Ok new_ids =>
                let h := handled (as_completed env
                                    (map (get_details_for_bid env) new_ids)) in
                let added := flat_map bid_of (fst h) in
                let lg := log w ++ Info_found_bid_ids bid_ids
                                  :: flat_map log_of (fst h) in
                let tr := trace w ++ Get results_url []
                                    :: QueryNew bid_ids get_site
                                    :: map Submit new_ids in
                match snd h with
                | Some e => (Raise e, mkWorld (db w) added lg tr)
                | None =>
                    match commit_error env added with
                    | Some e =>
                        (Raise e, mkWorld (db w) added lg (tr ++ [Commit]))
                    | None =>
                        (Ok tt,
                         mkWorld (db w ++ added) [] lg (tr ++ [Commit]))
                    end
                end
            end
        end
    end.
Proof.
  unfold scrape, bind, Session_new, emit, lift, log_record.
  cbn [db session log trace].
  destruct (scraper_get env results_url []) as [page|e]; [|reflexivity].
  destruct (scrape_results_page (content page)) as [bid_ids|e];
    [|reflexivity].
  destruct (get_new_identifiers env (db w) bid_ids get_site) as [new_ids|e].
  - rewrite process_new_bids_eq. cbv zeta. cbn [db session log trace app].
    destruct (snd (handled (as_completed env
                              (map (get_details_for_bid env) new_ids)))) as [e|];
      cbn [outcome].
    + now rewrite <- !app_assoc.
    + unfold session_commit, bind, emit. cbn [db session log trace].
      destruct (commit_error env _); now rewrite <- !app_assoc.
  - now rewrite <- !app_assoc.
Qed.

Lemma skipn_length_app {A} (l1 l2 : list A) :
  skipn (List.length l1) (l1 ++ l2) = l2.
Proof. induction l1; simpl; auto. Qed.

(** The events of a run, in order. *)
Lemma run_events_eq (env : Env) (w : World) :
  run_events env w
  = Get results_url []
    :: match scraper_get env results_url [] with
       | Raise _ => []
       | Ok page =>
           match scrape_results_page (content page) with
           | Raise _ => []
           | Ok bid_ids =>
               QueryNew bid_ids get_site
               :: match get_new_identifiers env (db w) bid_ids get_site with
                  | Raise _ => []
                  | Ok new_ids =>
                      map Submit new_ids
                      ++ match snd (handled
                                      (as_completed env
                                         (map (get_details_for_bid env)
                                            new_ids)))
                         with
                         | Some _ => []
                         | None => [Commit]
                         end
                  end
           end
       end.
Proof.
  unfold run_events, after. rewrite scrape_eq.
  destruct (scraper_get env results_url []) as [page|e];
    [|apply skipn_length_app].
  destruct (scrape_results_page (content page)) as [bid_ids|e];
    [|apply skipn_length_app].
  destruct (get_new_identifiers env (db w) bid_ids get_site) as [new_ids|e];
    [|apply skipn_length_app].
  cbv zeta. destruct (snd (handled _)) as [e|].
  - cbn [snd trace]. rewrite skipn_length_app, app_nil_r. reflexivity.
  - destruct (commit_error env _); cbn [snd trace];
      now rewrite <- app_assoc, skipn_length_app.
Qed.

Lemma filter_commit_submits (ids : list string) :
  filter is_commit (map Submit ids) = [].
Proof. induction ids; simpl; auto. Qed.

Lemma filter_query_submits (ids : list string) :
  filter is_query (map Submit ids) = [].
Proof. induction ids; simpl; auto. Qed.

Lemma submitted_submits (ids : list string) :
  submitted (map Submit ids) = ids.
Proof. induction ids; simpl; congruence. Qed.

(** C8. When the GET of the listing page raises, [scrape] raises the same
    exception and has done nothing else: the trace holds that GET alone (no
    dedup query, no submitted detail fetch, no commit), nothing was logged,
    the session is empty and the committed rows are those it started with. *)
Theorem listing_failure_is_fatal (env : Env) (w : World) (e : exn) :
  scraper_get env results_url [] = Raise e ->
  scrape env w
  = (Raise e, mkWorld (db w) [] (log w) (trace w ++ [Get results_url []]))
  /\ run_events env w = [Get results_url []].
Proof.
  intros H. rewrite run_events_eq, scrape_eq, H. split; reflexivity.
Qed.

Lemma listing_failure_is_fatal_fixture :
  scraper_get env_listing_fails results_url []
  = Raise (TransportError "connection refused")
  /\ scrape env_listing_fails (mkWorld [snow_bid "7"] [] [] [])
     = (Raise (TransportError "connection refused"),
        mkWorld [snow_bid "7"] [] [] [Get results_url []])
  /\ run_events env_listing_fails (mkWorld [snow_bid "7"] [] [] [])
     = [Get results_url []].
Proof.
  split; [reflexivity|].
  exact (listing_failure_is_fatal env_listing_fails
           (mkWorld [snow_bid "7"] [] [] [])
           (TransportError "connection refused") eq_refl).
Defined.

(** C6, as amended.  A run that returns normally has committed exactly
    once, as its last action, and no run commits more than once; a run in
    which the listing fetch, the parsing of the listing page or the dedup
    query raises has not committed at all.  When the dedup query yields no
    new identifier the run goes from the query straight to the commit: no
    detail fetch is submitted, no bid is added, and the run returns
    normally when the commit does. *)
Theorem run_commits_once (env : Env) (w : World) :
  completes_each_once env ->
  (fst (scrape env w) = Ok tt ->
   exists evs, run_events env w = evs ++ [Commit]
               /\ filter is_commit evs = [])
  /\ List.length (filter is_commit (run_events env w)) <= 1
  /\ (forall e : exn,
        scraper_get env results_url [] = Raise e ->
        fst (scrape env w) = Raise e
        /\ filter is_commit (run_events env w) = [])
  /\ (forall (page : Response) (e : exn),
        scraper_get env results_url [] = Ok page ->
        scrape_results_page (content page) = Raise e ->
        fst (scrape env w) = Raise e
        /\ filter is_commit (run_events env w) = [])
  /\ (forall (page : Response) (bid_ids : list string) (e : exn),
        scraper_get env results_url [] = Ok page ->
        scrape_results_page (content page) = Ok bid_ids ->
        get_new_identifiers env (db w) bid_ids get_site = Raise e ->
        fst (scrape env w) = Raise e
        /\ filter is_commit (run_events env w) = [])
  /\ (forall (page : Response) (bid_ids : list string),
        scraper_get env results_url [] = Ok page ->
        scrape_results_page (content page) = Ok bid_ids ->
        get_new_identifiers env (db w) bid_ids get_site = Ok [] ->
        run_events env w
        = [Get results_url []; QueryNew bid_ids get_site; Commit]
        /\ (commit_error env [] = None ->
            scrape env w
            = (Ok tt,
               mkWorld (db w) [] (log w ++ [Info_found_bid_ids bid_ids])
                 (trace w ++ [Get results_url [];
                              QueryNew bid_ids get_site; Commit])))).
Proof.
  intros Hperm. split; [|split; [|split; [|split; [|split]]]].
  - rewrite run_events_eq, scrape_eq.
    destruct (scraper_get env results_url []) as [page|e]; [|discriminate].
    destruct (scrape_results_page (content page)) as [bid_ids|e];
      [|discriminate].
    destruct (get_new_identifiers env (db w) bid_ids get_site) as [new_ids|e];
      [|discriminate].
    cbv zeta. destruct (snd (handled _)) as [e|]; [discriminate|]. intros _.
    exists (Get results_url [] :: QueryNew bid_ids get_site
            :: map Submit new_ids).
    split; [reflexivity|]. cbn [filter is_commit].
    apply filter_commit_submits.
  - rewrite run_events_eq.
    destruct (scraper_get env results_url []) as [page|e]; [|simpl; lia].
    destruct (scrape_results_page (content page)) as [bid_ids|e];
      [|simpl; lia].
    destruct (get_new_identifiers env (db w) bid_ids get_site) as [new_ids|e];
      [|simpl; lia].
    cbn [filter is_commit]. rewrite filter_app, filter_commit_submits.
    destruct (snd (handled _)); simpl; lia.
  - intros e G. rewrite run_events_eq, scrape_eq, G. split; reflexivity.
  - intros page e G P. rewrite run_events_eq, scrape_eq, G, P.
    split; reflexivity.
  - intros page bid_ids e G P Q. rewrite run_events_eq, scrape_eq, G, P, Q.
    split; reflexivity.
  - intros page bid_ids G P Q.
    assert (E : as_completed env [] = []).
    { apply Permutation_nil. apply Hperm. }
    rewrite run_events_eq, scrape_eq, G, P, Q. cbv zeta.
    cbn [map]. rewrite E. cbn [handled fst snd flat_map app].
    split; [reflexivity|]. intros Hcommit. rewrite Hcommit.
    now rewrite app_nil_r, <- app_assoc.
Qed.

(** A listing without links: the run queries, commits and returns. *)
Lemma run_commits_once_fixture :
  completes_each_once env_nothing_listed
  /\ scrape env_nothing_listed empty_world
     = (Ok tt,
        mkWorld [] [] [Info_found_bid_ids []]
          [Get results_url []; QueryNew [] CITYOFBOSTON; Commit]).
Proof.
  assert (H : completes_each_once env_nothing_listed).
  { intros fs. apply Permutation_refl. }
  split; [exact H|].
  exact (proj2
           (proj2 (proj2 (proj2 (proj2 (proj2
              (run_commits_once env_nothing_listed empty_world H)))))
              (mkResponse (Markup listing_empty_fixture)) [] eq_refl eq_refl
              eq_refl)
           eq_refl).
Defined.

(** C6 as stated fails: a run whose listing fetch raises, and a run whose
    listing page has an empty body, end without any commit. *)
Lemma run_without_commit :
  (fst (scrape env_listing_fails empty_world)
   = Raise (TransportError "connection refused")
   /\ filter is_commit (run_events env_listing_fails empty_world) = [])
  /\ (fst (scrape env_listing_blank empty_world) = Raise ParserError
      /\ filter is_commit (run_events env_listing_blank empty_world) = []).
Proof. repeat split. Qed.

(** C7, as amended.  In a run whose listing fetch succeeds and whose
    listing page parses, the dedup query is made exactly once, before any
    detail fetch is submitted, and the detail fetches submitted are those of
    the identifiers the query returned, in that order (none when the query
    raises).  A run whose listing fetch raises, or whose listing page cannot
    be parsed, makes no dedup query. *)
Theorem run_queries_once_before_fetching (env : Env) (w : World) :
  (forall e : exn,
      scraper_get env results_url [] = Raise e ->
      filter is_query (run_events env w) = [])
  /\ (forall (page : Response) (e : exn),
        scraper_get env results_url [] = Ok page ->
        scrape_results_page (content page) = Raise e ->
        filter is_query (run_events env w) = [])
  /\ (forall (page : Response) (bid_ids : list string),
        scraper_get env results_url [] = Ok page ->
        scrape_results_page (content page) = Ok bid_ids ->
        exists later : list Event,
          run_events env w
          = Get results_url [] :: QueryNew bid_ids get_site :: later
          /\ filter is_query later = []
          /\ submitted later
             = match get_new_identifiers env (db w) bid_ids get_site with
               | Ok new_ids => new_ids
               | Raise _ => []
               end).
Proof.
  split; [|split].
  - intros e G. now rewrite run_events_eq, G.
  - intros page e G P. now rewrite run_events_eq, G, P.
  - intros page bid_ids G P. rewrite run_events_eq, G, P.
    destruct (get_new_identifiers env (db w) bid_ids get_site) as [new_ids|e].
    + eexists. split; [reflexivity|]. split.
      * rewrite filter_app, filter_query_submits.
        destruct (snd (handled _)); reflexivity.
      * unfold submitted. rewrite flat_map_app.
        fold (submitted (map Submit new_ids)). rewrite submitted_submits.
        destruct (snd (handled _)); simpl; now rewrite ?app_nil_r.
    + exists []. repeat split.
Qed.

(** The listing fixture on an empty database: both identifiers are new and
    both are fetched, after the one query. *)
Lemma run_queries_once_before_fetching_fixture :
  scraper_get env_all_ok results_url []
  = Ok (mkResponse (Markup listing_fixture))
  /\ scrape_results_page (Markup listing_fixture) = Ok ["101"; "202"]
  /\ exists later : list Event,
       run_events env_all_ok empty_world
       = Get results_url [] :: QueryNew ["101"; "202"] get_site :: later
       /\ filter is_query later = []
       /\ submitted later
          = match get_new_identifiers env_all_ok (db empty_world)
                    ["101"; "202"] get_site with
            | Ok new_ids => new_ids
            | Raise _ => []
            end.
Proof.
  split; [reflexivity|]. split; [reflexivity|].
  exact (proj2 (proj2 (run_queries_once_before_fetching env_all_ok empty_world))
           (mkResponse (Markup listing_fixture)) ["101"; "202"]
           eq_refl eq_refl).
Defined.

(** C7 as stated fails: a run whose listing fetch raises, and a run whose
    listing page has an empty body, make no dedup query at all. *)
Lemma run_without_query :
  (fst (scrape env_listing_fails empty_world)
   = Raise (TransportError "connection refused")
   /\ filter is_query (run_events env_listing_fails empty_world) = [])
  /\ (fst (scrape env_listing_blank empty_world) = Raise ParserError
      /\ filter is_query (run_events env_listing_blank empty_world) = []).
Proof. repeat split. Qed.

Example run_fixture :
  scrape env_all_ok (mkWorld [snow_bid "101"] [] [] [])
  = (Ok tt,
     mkWorld [snow_bid "101"; snow_bid "202"] []
       [Info_found_bid_ids ["101"; "202"];
        Info_found_new_bid (snow_bid "202")]
       [Get results_url []; QueryNew ["101"; "202"] CITYOFBOSTON;
        Submit "202"; Commit]).
Proof. reflexivity. Qed.

(** ** The thread pool *)

Lemma set_nth_length {A} (i : nat) (x : A) (l : list A) :
  List.length (Pool.set_nth i x l) = List.length l.
Proof.
  revert i; induction l as [|y l IH]; intros [|i]; simpl; auto.
Qed.

Lemma set_nth_in {A} (i : nat) (x y : A) (l : list A) :
  In y (Pool.set_nth i x l) -> y = x \/ In y l.
Proof.
  revert i; induction l as [|z l IH]; intros [|i]; simpl; try tauto.
  - intros [<-|H]; auto.
  - intros [<-|H]; auto. destruct (IH _ H); auto.
Qed.

Lemma in_flight_bound {T} (ex : Pool.Executor T) :
  List.length (Pool.in_flight ex) <= List.length (Pool.threads ex).
Proof.
  unfold Pool.in_flight. induction (Pool.threads ex) as [|[t|] ws IH];
    simpl; lia.
Qed.

Lemma in_flight_in {T} (ex : Pool.Executor T) (t : T) :
  In t (Pool.in_flight ex) -> In (Some t) (Pool.threads ex).
Proof.
  unfold Pool.in_flight. intros H. apply in_flat_map in H as ([u|] & Hu & Ht).
  - destruct Ht as [<-|[]]. exact Hu.
  - destruct Ht.
Qed.

Lemma harvest_invariant_start (new_ids : list string) (w : World) :
  harvest_invariant new_ids (harvest_start new_ids w).
Proof.
  unfold harvest_invariant, harvest_start. simpl.
  repeat split; try tauto. unfold NUMBER_OF_THREADS. lia.
Qed.

Lemma harvest_invariant_step (env : Env) (new_ids : list string) (m : move)
    (h h' : Harvest) :
  harvest_invariant new_ids h -> harvest_step env m h = Some h' ->
  harvest_invariant new_ids h'.
Proof.
  unfold harvest_invariant.
  intros (Hmax & Hlen & Htodo & Hqueue & Hrun).
  destruct m as [start|i|i|k]; cbn [harvest_step].
  - destruct (to_submit h) as [|bid_id rest]; [discriminate|].
    unfold Pool.submit.
    destruct start;
      [destruct (List.length (Pool.threads (executor h))
                 <? Pool.max_workers (executor h)) eqn:G; [|discriminate];
       apply Nat.ltb_lt in G|];
      intros H; inversion H; subst; clear H;
      cbn [executor to_submit Pool.max_workers Pool.threads Pool.work_queue];
      (split; [assumption|]); (split; [|split; [|split]]).
    + rewrite length_app. simpl. lia.
    + intros u Hu. apply Htodo. now right.
    + intros u Hu. apply in_app_or in Hu as [Hu|[<-|[]]]; auto.
      apply Htodo. now left.
    + intros u Hu. apply in_app_or in Hu as [Hu|[Hu|[]]]; auto. discriminate.
    + assumption.
    + intros u Hu. apply Htodo. now right.
    + intros u Hu. apply in_app_or in Hu as [Hu|[<-|[]]]; auto.
      apply Htodo. now left.
    + assumption.
  - unfold Pool.take.
    destruct (nth_error (Pool.threads (executor h)) i) as [[u|]|];
      try discriminate.
    destruct (Pool.work_queue (executor h)) as [|t q] eqn:Q; [discriminate|].
    intros H; inversion H; subst; clear H.
    cbn [executor to_submit Pool.max_workers Pool.threads Pool.work_queue].
    repeat split; auto.
    + now rewrite set_nth_length.
    + intros u Hu. apply Hqueue. now right.
    + intros u Hu. apply set_nth_in in Hu as [Hu|Hu]; auto.
      inversion Hu; subst. apply Hqueue. now left.
  - unfold Pool.finish.
    destruct (nth_error (Pool.threads (executor h)) i) as [[u|]|];
      try discriminate.
    intros H; inversion H; subst; clear H.
    cbn [executor to_submit Pool.max_workers Pool.threads Pool.work_queue].
    repeat split; auto.
    + now rewrite set_nth_length.
    + intros v Hv. apply set_nth_in in Hv as [Hv|Hv]; auto. discriminate.
  - destruct (to_submit h) as [|? ?] eqn:T; [|discriminate].
    destruct (stopped h); [discriminate|].
    destruct (nth_error (completed h) k) as [bid_id|]; [|discriminate].
    destruct (handle_future (get_details_for_bid env bid_id) (world h))
      as [r w'].
    intros H; inversion H; subst; clear H.
    cbn [executor to_submit]. repeat split; auto; try (intros i []).
Qed.

Lemma harvest_invariant_run (env : Env) (new_ids : list string)
    (moves : list move) (h h' : Harvest) :
  harvest_invariant new_ids h -> harvest_run env moves h = Some h' ->
  harvest_invariant new_ids h'.
Proof.
  revert h; induction moves as [|m moves IH]; intros h Hinv; simpl.
  - intros H; inversion H; now subst.
  - destruct (harvest_step env m h) as [h1|] eqn:S; [|discriminate].
    apply IH. eapply harvest_invariant_step; eassumption.
Qed.

(** C9, as amended.  Whatever the number of new identifiers and whatever
    the interleaving of the coordinator and the workers, at most 5 detail
    fetches run at any instant, and they are fetches of new identifiers.
    The bound is on the fetches, the only work given to the pool: the pages
    are parsed by the loop of the coordinator. *)
Theorem at_most_five_in_flight
    (env : Env) (new_ids : list string) (w : World)
    (moves : list move) (h : Harvest) :
  harvest_run env moves (harvest_start new_ids w) = Some h ->
  List.length (fetches_in_flight h) <= 5
  /\ forall i, In i (fetches_in_flight h) -> In i new_ids.
Proof.
  intros Hrun.
  destruct (harvest_invariant_run env new_ids moves _ _
              (harvest_invariant_start new_ids w) Hrun)
    as (_ & Hlen & _ & _ & Hthreads).
  unfold fetches_in_flight. split.
  - pose proof (in_flight_bound (executor h)) as B.
    unfold NUMBER_OF_THREADS in Hlen. lia.
  - intros i Hi. apply Hthreads. now apply in_flight_in.
Qed.

(** Twenty identifiers: five fetches run. *)
Lemma at_most_five_in_flight_fixture :
  harvest_run env_all_ok lagging_schedule
    (harvest_start twenty_ids empty_world) = Some lagging_harvest
  /\ fetches_in_flight lagging_harvest = ["16"; "17"; "18"; "19"; "20"]
  /\ (List.length (fetches_in_flight lagging_harvest) <= 5
      /\ forall i, In i (fetches_in_flight lagging_harvest) ->
           In i twenty_ids).
Proof.
  assert (H : harvest_run env_all_ok lagging_schedule
                (harvest_start twenty_ids empty_world) = Some lagging_harvest)
    by (vm_compute; reflexivity).
  split; [exact H|]. split; [vm_compute; reflexivity|].
  exact (at_most_five_in_flight env_all_ok twenty_ids empty_world
           lagging_schedule lagging_harvest H).
Defined.

(** C9 as stated fails: counted as fetch-then-parse, twenty identifiers are
    in progress at once, five being fetched and fifteen fetched and waiting
    for the loop to parse them. *)
Lemma more_than_five_in_progress :
  harvest_run env_all_ok lagging_schedule
    (harvest_start twenty_ids empty_world) = Some lagging_harvest
  /\ List.length (fetches_in_flight lagging_harvest) = 5
  /\ List.length (completed lagging_harvest) = 15
  /\ yielded lagging_harvest = []
  /\ List.length (in_progress lagging_harvest) = 20
  /\ ~ List.length (in_progress lagging_harvest) <= 5.
Proof.
  assert (E : List.length (in_progress lagging_harvest) = 20)
    by (vm_compute; reflexivity).
  split; [vm_compute; reflexivity|]. split; [vm_compute; reflexivity|].
  split; [vm_compute; reflexivity|]. split; [vm_compute; reflexivity|].
  split; [exact E|]. rewrite E. lia.
Qed.

(* ================================================================== *)
(** * Further properties *)

(** ** What [strip] leaves *)

Lemma lstrip_head (s : string) :
  PyStr.starts_with PyStr.is_space (PyStr.lstrip s) = false.
Proof.
  induction s as [|c s IH]; simpl; [reflexivity|].
  destruct (PyStr.is_space c) eqn:E; simpl; assumption.
Qed.

Lemma lstrip_fixed (s : string) :
  PyStr.starts_with PyStr.is_space s = false -> PyStr.lstrip s = s.
Proof.
  destruct s as [|c s]; simpl; [reflexivity|]. now intros ->.
Qed.

Lemma rstrip_head (s : string) :
  PyStr.starts_with PyStr.is_space s = false ->
  PyStr.starts_with PyStr.is_space (PyStr.rstrip s) = false.
Proof.
  destruct s as [|c s]; simpl; [reflexivity|]. intros E.
  destruct (PyStr.rstrip s); simpl; [rewrite E; simpl|]; assumption.
Qed.

Lemma rstrip_idempotent (s : string) :
  PyStr.rstrip (PyStr.rstrip s) = PyStr.rstrip s.
Proof.
  induction s as [|c s IH]; [reflexivity|]. simpl.
  destruct (PyStr.rstrip s) as [|d r] eqn:R.
  - destruct (PyStr.is_space c) eqn:E; simpl; [reflexivity | now rewrite E].
  - change (PyStr.rstrip (String c (String d r)))
      with (match PyStr.rstrip (String d r) with
            | EmptyString =>
                if PyStr.is_space c then EmptyString else String c EmptyString
            | String _ _ as r' => String c r'
            end).
    now rewrite IH.
Qed.

(** Stripping twice strips once: a stripped string has no whitespace at
    either end. *)
Lemma strip_idempotent (s : string) :
  PyStr.strip (PyStr.strip s) = PyStr.strip s.
Proof.
  unfold PyStr.strip.
  rewrite (lstrip_fixed (PyStr.rstrip (PyStr.lstrip s))).
  - apply rstrip_idempotent.
  - apply rstrip_head, lstrip_head.
Qed.

(** ** The bids the detail parser makes, and when it raises *)

(** X1. Every bid [scrape_bid_page] returns carries the identifier it was
    given and the name of the site, has exactly one item (the empty string
    when the centered block has no text of its own), and a description
    without whitespace at either end. *)
Theorem scrape_bid_page_well_formed
    (page : Response) (bid_id : string) (bid : Bid) :
  scrape_bid_page page bid_id = Ok bid ->
  identifier bid = bid_id
  /\ site bid = Site_name CITYOFBOSTON
  /\ List.length (items bid) = 1
  /\ PyStr.strip (description bid) = description bid.
Proof.
  unfold scrape_bid_page.
  destruct (html_fromstring (content page)) as [tree|]; [|discriminate].
  destruct (first (XPath.descendant_or_self "center" tree))
    as [first_center|]; [|discriminate].
  destruct (first (XPath.child "b" first_center)) as [b|]; [|discriminate].
  destruct (text b) as [t|]; [|discriminate].
  intros H; inversion H; subst bid; clear H. cbn [identifier site items
    description]. repeat split. apply strip_idempotent.
Qed.

Lemma scrape_bid_page_well_formed_fixture :
  scrape_bid_page detail_padded "77"
  = Ok (mkBid "77" "Road Salt 2024" [""] "CITYOFBOSTON")
  /\ identifier (mkBid "77" "Road Salt 2024" [""] "CITYOFBOSTON") = "77"
  /\ site (mkBid "77" "Road Salt 2024" [""] "CITYOFBOSTON")
     = Site_name CITYOFBOSTON
  /\ List.length (items (mkBid "77" "Road Salt 2024" [""] "CITYOFBOSTON")) = 1
  /\ PyStr.strip (description (mkBid "77" "Road Salt 2024" [""] "CITYOFBOSTON"))
     = description (mkBid "77" "Road Salt 2024" [""] "CITYOFBOSTON").
Proof.
  split; [reflexivity|].
  exact (scrape_bid_page_well_formed detail_padded "77" _ eq_refl).
Defined.

(** X2. [scrape_bid_page] raises [ParserError] exactly when the body of
    the page holds no element, [IndexError] exactly when the body parses and
    the page has no centered block or its first centered block has no bold
    child, [AttributeError] exactly when the first bold child of the first
    centered block has no text, and nothing else (never the [ValueError] its
    docstring announces); centered blocks after the first are never looked
    at. *)
Theorem scrape_bid_page_error_cases (page : Response) (bid_id : string) :
  (scrape_bid_page page bid_id = Raise ParserError <->
   html_fromstring (content page) = Raise ParserError)
  /\ (scrape_bid_page page bid_id = Raise IndexError <->
      exists tree,
        html_fromstring (content page) = Ok tree
        /\ (XPath.descendant_or_self "center" tree = []
            \/ exists c cs,
                 XPath.descendant_or_self "center" tree = c :: cs
                 /\ XPath.child "b" c = []))
  /\ (scrape_bid_page page bid_id = Raise AttributeError <->
      exists tree c cs b bs,
        html_fromstring (content page) = Ok tree
        /\ XPath.descendant_or_self "center" tree = c :: cs
        /\ XPath.child "b" c = b :: bs
        /\ text b = None)
  /\ (forall e : exn,
        scrape_bid_page page bid_id = Raise e ->
        e = ParserError \/ e = IndexError \/ e = AttributeError).
Proof.
  unfold scrape_bid_page.
  destruct (content page) as [tree|]; cbn [html_fromstring].
  2:{ split; [|split; [|split]].
      - split; reflexivity.
      - split; [discriminate | intros (? & H & _); discriminate].
      - split; [discriminate|].
        intros (? & ? & ? & ? & ? & H & _); discriminate.
      - intros e H; inversion H; now left. }
  destruct (XPath.descendant_or_self "center" tree) as [|c cs] eqn:C;
    cbn [first].
  { split; [|split; [|split]].
    - split; discriminate.
    - split; [|reflexivity]. intros _. exists tree. split; [reflexivity|].
      now left.
    - split; [discriminate|].
      intros (t' & ? & ? & ? & ? & H & H' & _). inversion H; subst.
      rewrite C in H'. discriminate.
    - intros e H; inversion H; right; now left. }
  destruct (XPath.child "b" c) as [|b bs] eqn:B; cbn [first].
  { split; [|split; [|split]].
    - split; discriminate.
    - split; [|reflexivity]. intros _. exists tree. split; [reflexivity|].
      right. now exists c, cs.
    - split; [discriminate|].
      intros (t' & c' & cs' & b' & bs' & H & Hc & Hb & _).
      inversion H; subst. rewrite C in Hc. inversion Hc; subst.
      rewrite B in Hb. discriminate.
    - intros e H; inversion H; right; now left. }
  destruct (text b) as [t|] eqn:T.
  - split; [|split; [|split]]; try (split; discriminate).
    + split; [discriminate|].
      intros (t' & H & [Hc | (c' & cs' & Hc & Hb)]); inversion H; subst;
        rewrite C in Hc; [discriminate|].
      inversion Hc; subst. rewrite B in Hb. discriminate.
    + split; [discriminate|].
      intros (t' & c' & cs' & b' & bs' & H & Hc & Hb & Ht).
      inversion H; subst. rewrite C in Hc. inversion Hc; subst.
      rewrite B in Hb. inversion Hb; subst. rewrite T in Ht. discriminate.
    + discriminate.
  - split; [|split; [|split]].
    + split; discriminate.
    + split; [discriminate|].
      intros (t' & H & [Hc | (c' & cs' & Hc & Hb)]); inversion H; subst;
        rewrite C in Hc; [discriminate|].
      inversion Hc; subst. rewrite B in Hb. discriminate.
    + split; [|reflexivity]. intros _. now exists tree, c, cs, b, bs.
    + intros e H; inversion H; right; now right.
Qed.
(** ** What the harvester does in every case *)

Lemma found_logged_app (l1 l2 : list LogRecord) :
  found_logged (l1 ++ l2) = found_logged l1 ++ found_logged l2.
Proof. apply flat_map_app. Qed.

(** The loop announces a bid exactly when it adds it. *)
Lemma found_of_futures (fs : list Future) :
  found_logged (flat_map log_of fs) = flat_map bid_of fs.
Proof.
  induction fs as [|f fs IH]; [reflexivity|].
  cbn [flat_map]. rewrite found_logged_app, IH. f_equal.
  destruct f as [[page i]|e]; simpl; [|reflexivity].
  destruct (scrape_bid_page page i); reflexivity.
Qed.

(** A future the loop gets through leaves exactly one record. *)
Lemma records_of_futures (fs : list Future) :
  (forall f, In f fs -> parse_error f = None) ->
  List.length (flat_map log_of fs) = List.length fs.
Proof.
  induction fs as [|f fs IH]; intros H; [reflexivity|].
  cbn [flat_map]. rewrite length_app, IH by (intros g Hg; apply H; now right).
  assert (Hf := H f (or_introl eq_refl)).
  destruct f as [[page i]|e]; simpl in *; [|reflexivity].
  destruct (scrape_bid_page page i); [reflexivity | discriminate].
Qed.

(** X3. Whatever the completion order, whether it returns or raises,
    [process_new_bids] submits exactly one detail task per identifier given,
    in the order given, leaves the committed rows alone (it never commits),
    only appends to the session and to the log, and the bids the log
    announces as found are exactly the bids it added, in the same order. *)
Theorem harvest_effects (env : Env) (new_ids : list string) (w : World) :
  exists (added : list Bid) (records : list LogRecord),
    db (snd (process_new_bids env new_ids w)) = db w
    /\ trace (snd (process_new_bids env new_ids w))
       = trace w ++ map Submit new_ids
    /\ session (snd (process_new_bids env new_ids w)) = session w ++ added
    /\ log (snd (process_new_bids env new_ids w)) = log w ++ records
    /\ found_logged records = added.
Proof.
  rewrite process_new_bids_eq. cbv zeta. cbn [snd db session log trace].
  eexists. eexists. repeat split. apply found_of_futures.
Qed.

(** X4. Fetch failures never stop the harvester: when every page that was
    fetched parses, [process_new_bids] returns normally whatever the number
    of failed fetches and the completion order; the bids added and the
    failed fetches add up to the number of identifiers, one error is logged
    per failed fetch, and the log gains one record per identifier. *)
Theorem harvest_best_effort (env : Env) (new_ids : list string) (w : World) :
  completes_each_once env ->
  (forall i, In i new_ids -> parse_error (get_details_for_bid env i) = None) ->
  exists added : list Bid,
    fst (process_new_bids env new_ids w) = Ok tt
    /\ session (snd (process_new_bids env new_ids w)) = session w ++ added
    /\ Permutation added
         (flat_map bid_of (map (get_details_for_bid env) new_ids))
    /\ List.length added
       + List.length
           (filter (fun i => fetch_failed (get_details_for_bid env i)) new_ids)
       = List.length new_ids
    /\ List.length (errors_logged (log (snd (process_new_bids env new_ids w))))
       = List.length (errors_logged (log w))
         + List.length
             (filter (fun i => fetch_failed (get_details_for_bid env i))
                new_ids)
    /\ List.length (log (snd (process_new_bids env new_ids w)))
       = List.length (log w) + List.length new_ids.
Proof.
  intros Hperm Hparse.
  set (futures := map (get_details_for_bid env) new_ids).
  assert (P : Permutation futures (as_completed env futures)) by apply Hperm.
  assert (Hall : forall f, In f (as_completed env futures) ->
                           parse_error f = None).
  { intros f Hf. apply Permutation_sym in P.
    apply (Permutation_in _ P) in Hf. apply in_map_iff in Hf as (i & <- & Hi).
    now apply Hparse. }
  assert (F : List.length (filter fetch_failed (as_completed env futures))
              = List.length
                  (filter (fun i => fetch_failed (get_details_for_bid env i))
                     new_ids)).
  { rewrite <- (filter_length_perm _ _ _ P). unfold futures.
    apply filter_map_length. }
  assert (L : List.length (as_completed env futures) = List.length new_ids).
  { rewrite <- (Permutation_length P). unfold futures. apply length_map. }
  rewrite process_new_bids_eq. fold futures. cbv zeta.
  rewrite (handled_all _ Hall). cbn [fst snd outcome db session log].
  exists (flat_map bid_of (as_completed env futures)).
  repeat split.
  - apply Permutation_flat_map, Permutation_sym, P.
  - rewrite <- F, <- L. now apply bids_plus_failures.
  - now rewrite errors_logged_app, length_app, errors_of_futures, F.
  - now rewrite length_app, records_of_futures, L.
Qed.

(** No detail page can be fetched: the harvester returns, with no bid and
    one logged error per identifier. *)
Lemma harvest_best_effort_fixture :
  completes_each_once env_no_page_reachable
  /\ (forall i, In i ["101"; "202"; "303"] ->
        parse_error (get_details_for_bid env_no_page_reachable i) = None)
  /\ process_new_bids env_no_page_reachable ["101"; "202"; "303"] empty_world
     = (Ok tt,
        mkWorld [] []
          [Error_exception (TransportError "timeout");
           Error_exception (TransportError "timeout");
           Error_exception (TransportError "timeout")]
          [Submit "101"; Submit "202"; Submit "303"])
  /\ exists added : list Bid,
       fst (process_new_bids env_no_page_reachable ["101"; "202"; "303"]
              empty_world) = Ok tt
       /\ session (snd (process_new_bids env_no_page_reachable
                          ["101"; "202"; "303"] empty_world))
          = session empty_world ++ added
       /\ Permutation added
            (flat_map bid_of
               (map (get_details_for_bid env_no_page_reachable)
                  ["101"; "202"; "303"]))
       /\ List.length added
          + List.length
              (filter
                 (fun i => fetch_failed
                             (get_details_for_bid env_no_page_reachable i))
                 ["101"; "202"; "303"])
          = List.length ["101"; "202"; "303"]
       /\ List.length
            (errors_logged
               (log (snd (process_new_bids env_no_page_reachable
                            ["101"; "202"; "303"] empty_world))))
          = List.length (errors_logged (log empty_world))
            + List.length
                (filter
                   (fun i => fetch_failed
                               (get_details_for_bid env_no_page_reachable i))
                   ["101"; "202"; "303"])
       /\ List.length
            (log (snd (process_new_bids env_no_page_reachable
                         ["101"; "202"; "303"] empty_world)))
          = List.length (log empty_world) + List.length ["101"; "202"; "303"].
Proof.
  assert (H1 : completes_each_once env_no_page_reachable).
  { intros fs. apply Permutation_rev. }
  assert (H2 : forall i, In i ["101"; "202"; "303"] ->
                 parse_error (get_details_for_bid env_no_page_reachable i)
                 = None).
  { intros i _. reflexivity. }
  split; [exact H1|]. split; [exact H2|]. split; [reflexivity|].
  exact (harvest_best_effort env_no_page_reachable ["101"; "202"; "303"]
           empty_world H1 H2).
Defined.

(** ** What a run leaves behind *)

Lemma handled_none_iff (fs : list Future) :
  snd (handled fs) = None <-> forall f, In f fs -> parse_error f = None.
Proof.
  induction fs as [|f fs IH]; simpl.
  - split; [intros _ f [] | reflexivity].
  - destruct (parse_error f) as [e|] eqn:P.
    + split; [discriminate|]. intros H.
      specialize (H f (or_introl eq_refl)). congruence.
    + destruct (handled fs) as [h stop]. cbn [snd] in *. rewrite IH. split.
      * intros H g [<-|Hg]; auto.
      * intros H g Hg. apply H. now right.
Qed.

Lemma handled_fst_all (fs : list Future) :
  snd (handled fs) = None -> fst (handled fs) = fs.
Proof.
  intros H. now rewrite (handled_all _ (proj1 (handled_none_iff fs) H)).
Qed.

(** X5. A run is all or nothing for the committed rows: when [scrape]
    raises, at whatever point, the committed rows are those it started
    with; when it returns, the session is empty and the rows gained are
    exactly the bids the log announces as found, in the same order. *)
Theorem run_all_or_nothing (env : Env) (w : World) :
  match fst (scrape env w) with
  | Raise _ => db (after env w) = db w
  | Ok _ =>
      session (after env w) = []
      /\ exists added : list Bid,
           db (after env w) = db w ++ added
           /\ found_logged (log (after env w)) = found_logged (log w) ++ added
  end.
Proof.
  unfold after. rewrite scrape_eq.
  destruct (scraper_get env results_url []) as [page|e]; [|reflexivity].
  destruct (scrape_results_page (content page)) as [bid_ids|e];
    [|reflexivity].
  destruct (get_new_identifiers env (db w) bid_ids get_site) as [new_ids|e];
    [|reflexivity].
  cbv zeta.
  destruct (snd (handled _)) as [e|]; [reflexivity|].
  destruct (commit_error env _) as [e|]; [reflexivity|].
  cbn [fst snd db session log]. split; [reflexivity|].
  eexists. split; [reflexivity|].
  change (log w ++ Info_found_bid_ids bid_ids :: ?l)
    with (log w ++ [Info_found_bid_ids bid_ids] ++ l).
  rewrite !found_logged_app. cbn [found_logged flat_map app].
  now rewrite found_of_futures.
Qed.

(** X6. A run returns normally exactly when the listing fetch, the
    parsing of the listing page, the dedup query and the commit succeed and
    every detail page that was fetched parses; a failed detail fetch does
    not make a run fail, and the completion order plays no part in it
    beyond the order of the bids committed. *)
Theorem run_succeeds_iff (env : Env) (w : World) :
  completes_each_once env ->
  (fst (scrape env w) = Ok tt <->
   exists (page : Response) (bid_ids new_ids : list string),
     scraper_get env results_url [] = Ok page
     /\ scrape_results_page (content page) = Ok bid_ids
     /\ get_new_identifiers env (db w) bid_ids get_site = Ok new_ids
     /\ (forall i, In i new_ids ->
           parse_error (get_details_for_bid env i) = None)
     /\ commit_error env
          (flat_map bid_of
             (as_completed env (map (get_details_for_bid env) new_ids)))
        = None).
Proof.
  intros Hperm. rewrite scrape_eq.
  assert (Hin : forall new_ids,
             (forall f,
                 In f (as_completed env
                         (map (get_details_for_bid env) new_ids)) ->
                 parse_error f = None)
             <-> (forall i, In i new_ids ->
                    parse_error (get_details_for_bid env i) = None)).
  { intros new_ids.
    pose proof (Hperm (map (get_details_for_bid env) new_ids)) as P. split.
    - intros H i Hi. apply H. apply (Permutation_in _ P).
      now apply in_map.
    - intros H f Hf. apply Permutation_sym in P.
      apply (Permutation_in _ P) in Hf.
      apply in_map_iff in Hf as (i & <- & Hi). now apply H. }
  split.
  - destruct (scraper_get env results_url []) as [page|e]; [|discriminate].
    destruct (scrape_results_page (content page)) as [bid_ids|e] eqn:L;
      [|discriminate].
    destruct (get_new_identifiers env (db w) bid_ids get_site)
      as [new_ids|e] eqn:Q; [|discriminate].
    cbv zeta.
    destruct (snd (handled _)) as [e|] eqn:S; [discriminate|].
    rewrite (handled_fst_all _ S).
    destruct (commit_error env _) as [e|] eqn:C; [discriminate|].
    intros _. exists page, bid_ids, new_ids.
    split; [reflexivity|]. split; [exact L|]. split; [exact Q|].
    split; [|exact C].
    apply (proj1 (Hin new_ids)). exact (proj1 (handled_none_iff _) S).
  - intros (page & bid_ids & new_ids & -> & -> & Hq & Hparse & Hcommit).
    rewrite Hq. cbv zeta.
    rewrite (handled_all _ (proj2 (Hin new_ids) Hparse)). cbn [fst snd].
    now rewrite Hcommit.
Qed.

(** The fetch of 202 fails and the run still returns; with an empty listing
    body it does not. *)
Lemma run_succeeds_iff_fixture :
  completes_each_once env_fetch_202_fails
  /\ fst (scrape env_fetch_202_fails empty_world) = Ok tt
  /\ fst (scrape env_listing_blank empty_world) = Raise ParserError
  /\ (fst (scrape env_fetch_202_fails empty_world) = Ok tt <->
      exists (page : Response) (bid_ids new_ids : list string),
        scraper_get env_fetch_202_fails results_url [] = Ok page
        /\ scrape_results_page (content page) = Ok bid_ids
        /\ get_new_identifiers env_fetch_202_fails (db empty_world)
             bid_ids get_site = Ok new_ids
        /\ (forall i, In i new_ids ->
              parse_error (get_details_for_bid env_fetch_202_fails i) = None)
        /\ commit_error env_fetch_202_fails
             (flat_map bid_of
                (as_completed env_fetch_202_fails
                   (map (get_details_for_bid env_fetch_202_fails) new_ids)))
           = None).
Proof.
  assert (H : completes_each_once env_fetch_202_fails).
  { intros fs. apply Permutation_rev. }
  split; [exact H|]. split; [reflexivity|]. split; [reflexivity|].
  exact (run_succeeds_iff env_fetch_202_fails empty_world H).
Defined.
Lemma scrape_results_page_digits (page_str : body) (bid_ids : list string)
    (i : string) :
  scrape_results_page page_str = Ok bid_ids ->
  In i bid_ids ->
  i <> EmptyString /\ PyStr.all_chars PyStr.is_digit i = true.
Proof.
  intros H.
  destruct (html_fromstring page_str) as [tree|] eqn:T.
  - rewrite (scrape_results_page_refines _ _ T) in H.
    inversion H; subst; clear H. intros Hi.
    apply in_flat_map in Hi as (href & _ & Hi).
    destruct (detail_link_id href) as [d|] eqn:E; [|destruct Hi].
    destruct Hi as [<-|[]]. now apply detail_link_id_digits in E.
  - unfold scrape_results_page in H. rewrite T in H. discriminate.
Qed.
Lemma submitted_app (l1 l2 : list Event) :
  submitted (l1 ++ l2) = submitted l1 ++ submitted l2.
Proof. apply flat_map_app. Qed.

(** The detail tasks a run submits are those of the identifiers the dedup
    query returned. *)
Lemma submitted_run (env : Env) (w : World) :
  submitted (run_events env w)
  = match scraper_get env results_url [] with
    | Raise _ => []
    | Ok page =>
        match scrape_results_page (content page) with
        | Raise _ => []
        | Ok bid_ids =>
            match get_new_identifiers env (db w) bid_ids get_site with
            | Raise _ => []
            | Ok new_ids => new_ids
            end
        end
    end.
Proof.
  rewrite run_events_eq.
  destruct (scraper_get env results_url []) as [page|e]; [|reflexivity].
  destruct (scrape_results_page (content page)) as [bid_ids|e];
    [|reflexivity].
  destruct (get_new_identifiers env (db w) bid_ids get_site) as [new_ids|e];
    [|reflexivity].
  cbn [submitted flat_map app]. fold (submitted
    (map Submit new_ids ++
     match snd (handled (as_completed env
                           (map (get_details_for_bid env) new_ids))) with
     | Some _ => []
     | None => [Commit]
     end)).
  rewrite submitted_app, submitted_submits.
  destruct (snd (handled _)); simpl; now rewrite app_nil_r.
Qed.
(** X7. When the dedup query only returns candidates it was given, every
    detail page a run asks for belongs to an identifier that the listing
    page of that run links to, and that identifier is a non-empty string of
    decimal digits: no detail request carries anything else as [ID]. *)
Theorem run_fetches_only_listed_ids (env : Env) (w : World) (i : string) :
  dedup_selects env ->
  In i (submitted (run_events env w)) ->
  (exists (page : Response) (bid_ids : list string),
      scraper_get env results_url [] = Ok page
      /\ scrape_results_page (content page) = Ok bid_ids
      /\ In i bid_ids)
  /\ i <> EmptyString
  /\ PyStr.all_chars PyStr.is_digit i = true.
Proof.
  intros Hsel. rewrite submitted_run.
  destruct (scraper_get env results_url []) as [page|e]; [|intros []].
  destruct (scrape_results_page (content page)) as [bid_ids|e] eqn:L;
    [|intros []].
  destruct (get_new_identifiers env (db w) bid_ids get_site)
    as [new_ids|e] eqn:Q; [|intros []].
  intros Hi. pose proof (Hsel _ _ _ _ Q i Hi) as Hlisted.
  split; [now exists page, bid_ids|].
  exact (scrape_results_page_digits _ _ _ L Hlisted).
Qed.
Lemma filter_new_selects (rows : list Bid) (candidates : list string)
    (s : Site) (new_ids : list string) (i : string) :
  filter_new rows candidates s = Ok new_ids ->
  (In i new_ids <-> In i candidates /\ recorded rows s i = false).
Proof.
  unfold filter_new. intros H; inversion H; subst; clear H.
  rewrite nodup_In, filter_In. unfold recorded.
  now rewrite negb_true_iff.
Qed.

Lemma run_fetches_only_listed_ids_fixture :
  dedup_selects env_all_ok
  /\ In "202" (submitted (run_events env_all_ok empty_world))
  /\ (exists (page : Response) (bid_ids : list string),
         scraper_get env_all_ok results_url [] = Ok page
         /\ scrape_results_page (content page) = Ok bid_ids
         /\ In "202" bid_ids)
  /\ "202" <> EmptyString
  /\ PyStr.all_chars PyStr.is_digit "202" = true.
Proof.
  assert (H1 : dedup_selects env_all_ok).
  { intros rows candidates s new_ids Q i Hi.
    now apply (filter_new_selects _ _ _ _ i Q) in Hi. }
  assert (H2 : In "202" (submitted (run_events env_all_ok empty_world))).
  { right. left. reflexivity. }
  split; [exact H1|]. split; [exact H2|].
  exact (run_fetches_only_listed_ids env_all_ok empty_world "202" H1 H2).
Defined.

(** ** Running again *)

Lemma scrape_bid_page_site (page : Response) (bid_id : string) (bid : Bid) :
  scrape_bid_page page bid_id = Ok bid -> site bid = Site_name get_site.
Proof.
  unfold scrape_bid_page.
  destruct (html_fromstring (content page)) as [tree|]; [|discriminate].
  destruct (first (XPath.descendant_or_self "center" tree))
    as [first_center|]; [|discriminate].
  destruct (first (XPath.child "b" first_center)) as [b|]; [|discriminate].
  destruct (text b); [|discriminate].
  intros H; inversion H; reflexivity.
Qed.

(** What a run that returned went through, and the rows it left. *)
Lemma scrape_ok_inv (env : Env) (w : World) :
  fst (scrape env w) = Ok tt ->
  exists (page : Response) (bid_ids new_ids : list string),
    scraper_get env results_url [] = Ok page
    /\ scrape_results_page (content page) = Ok bid_ids
    /\ get_new_identifiers env (db w) bid_ids get_site = Ok new_ids
    /\ (forall f,
           In f (as_completed env (map (get_details_for_bid env) new_ids)) ->
           parse_error f = None)
    /\ db (after env w)
       = db w ++ flat_map bid_of
                   (as_completed env (map (get_details_for_bid env) new_ids)).
Proof.
  unfold after. rewrite scrape_eq.
  destruct (scraper_get env results_url []) as [page|e]; [|discriminate].
  destruct (scrape_results_page (content page)) as [bid_ids|e] eqn:L;
    [|discriminate].
  destruct (get_new_identifiers env (db w) bid_ids get_site)
    as [new_ids|e] eqn:Q; [|discriminate].
  cbv zeta.
  destruct (snd (handled _)) as [e|] eqn:S; [discriminate|].
  rewrite (handled_fst_all _ S).
  destruct (commit_error env _) as [e|]; [discriminate|].
  intros _. exists page, bid_ids, new_ids.
  split; [reflexivity|]. split; [exact L|]. split; [exact Q|].
  split; [|reflexivity].
  exact (proj1 (handled_none_iff _) S).
Qed.
Lemma recorded_app (rows1 rows2 : list Bid) (s : Site) (i : string) :
  recorded (rows1 ++ rows2) s i = recorded rows1 s i || recorded rows2 s i.
Proof. apply existsb_app. Qed.

Lemma recorded_in (rows : list Bid) (s : Site) (bid : Bid) :
  In bid rows -> site bid = Site_name s ->
  recorded rows s (identifier bid) = true.
Proof.
  intros Hin Hsite. apply existsb_exists. exists bid. split; [exact Hin|].
  now rewrite String.eqb_refl, Hsite, String.eqb_refl.
Qed.

(** X8. Against an unchanged site a second run is a no-op: when the dedup
    query returns exactly the candidates not recorded for the site, and a
    run returned after fetching every detail page it asked for, the next
    run from the world it left submits no detail fetch and leaves the
    committed rows as they are.  (The bid a run stores carries the
    identifier and the site name the query looks up.) *)
Theorem second_run_fetches_nothing (env : Env) (w : World) :
  completes_each_once env ->
  dedup_exact env ->
  fst (scrape env w) = Ok tt ->
  (forall i, In i (submitted (run_events env w)) ->
     fetch_failed (get_details_for_bid env i) = false) ->
  submitted (run_events env (after env w)) = []
  /\ db (after env (after env w)) = db (after env w).
Proof.
  intros Hperm Hexact Hok Hfetched.
  destruct (scrape_ok_inv env w Hok)
    as (page & bid_ids & new_ids & G & L & Q & Hparse & Hdb).
  rewrite submitted_run, G, L, Q in Hfetched.
  set (fs := as_completed env (map (get_details_for_bid env) new_ids)) in *.
  (* every candidate of the listing is recorded after the first run *)
  assert (Hrec : forall i, In i bid_ids ->
                   recorded (db (after env w)) get_site i = true).
  { intros i Hi. rewrite Hdb, recorded_app.
    destruct (recorded (db w) get_site i) eqn:R; [reflexivity|]. simpl.
    assert (Hnew : In i new_ids) by (apply (Hexact _ _ _ _ Q); now split).
    assert (Hf : In (get_details_for_bid env i) fs).
    { apply (Permutation_in _ (Hperm _)). now apply in_map. }
    pose proof (Hparse _ Hf) as Hp. pose proof (Hfetched i Hnew) as Hfe.
    destruct (bid_of_details env i) as [E | (p & bid & _ & Hs & Hid & E)].
    - exfalso. unfold bid_of, parse_error, fetch_failed in *.
      destruct (get_details_for_bid env i) as [[p j]|e]; [|discriminate].
      destruct (scrape_bid_page p j); discriminate.
    - rewrite <- Hid. apply recorded_in.
      + apply in_flat_map. exists (get_details_for_bid env i).
        split; [exact Hf|]. rewrite E. now left.
      + now apply scrape_bid_page_site in Hs. }
  (* hence the second query can return nothing *)
  assert (Hnone : forall l2,
             get_new_identifiers env (db (after env w)) bid_ids get_site
             = Ok l2 ->
             l2 = []).
  { intros [|i l2] Q2; [reflexivity|]. exfalso.
    destruct (proj1 (Hexact _ _ _ _ Q2 i) (or_introl eq_refl)) as [Hi R].
    rewrite (Hrec i Hi) in R. discriminate. }
  assert (E : as_completed env [] = []).
  { apply Permutation_nil. apply Hperm. }
  split.
  - rewrite submitted_run, G, L.
    destruct (get_new_identifiers env (db (after env w)) bid_ids get_site)
      as [l2|e] eqn:Q2; [|reflexivity]. exact (Hnone l2 eq_refl).
  - unfold after at 1. rewrite scrape_eq, G, L.
    destruct (get_new_identifiers env (db (after env w)) bid_ids get_site)
      as [l2|e] eqn:Q2; [|reflexivity].
    rewrite (Hnone l2 eq_refl). cbv zeta. cbn [map]. rewrite E.
    cbn [handled fst snd flat_map].
    destruct (commit_error env []); cbn [snd db]; [reflexivity|].
    apply app_nil_r.
Qed.

Lemma second_run_fetches_nothing_fixture :
  completes_each_once env_all_ok
  /\ dedup_exact env_all_ok
  /\ fst (scrape env_all_ok empty_world) = Ok tt
  /\ (forall i, In i (submitted (run_events env_all_ok empty_world)) ->
        fetch_failed (get_details_for_bid env_all_ok i) = false)
  /\ db (after env_all_ok empty_world) = [snow_bid "101"; snow_bid "202"]
  /\ submitted (run_events env_all_ok (after env_all_ok empty_world)) = []
  /\ db (after env_all_ok (after env_all_ok empty_world))
     = db (after env_all_ok empty_world).
Proof.
  assert (H1 : completes_each_once env_all_ok).
  { intros fs. apply Permutation_refl. }
  assert (H2 : dedup_exact env_all_ok).
  { intros rows candidates s new_ids Q i.
    exact (filter_new_selects _ _ _ _ i Q). }
  assert (H3 : fst (scrape env_all_ok empty_world) = Ok tt) by reflexivity.
  assert (H4 : forall i,
             In i (submitted (run_events env_all_ok empty_world)) ->
             fetch_failed (get_details_for_bid env_all_ok i) = false).
  { intros i _. reflexivity. }
  split; [exact H1|]. split; [exact H2|]. split; [exact H3|].
  split; [exact H4|]. split; [reflexivity|].
  exact (second_run_fetches_nothing env_all_ok empty_world H1 H2 H3 H4).
Defined.

(** ** The harvester step by step agrees with [process_new_bids] *)

Lemma handle_future_eq (f : Future) (w : World) :
  handle_future f w
  = match parse_error f with
    | Some e => (Raise e, w)
    | None =>
        (Ok tt,
         mkWorld (db w) (session w ++ bid_of f) (log w ++ log_of f) (trace w))
    end.
Proof.
  destruct f as [[page i]|exc]; unfold handle_future, parse_error, bid_of, log_of.
  - unfold bind, lift. destruct (scrape_bid_page page i) as [bid|e];
      reflexivity.
  - unfold log_record. now rewrite app_nil_r.
Qed.

Lemma handled_snoc (fs : list Future) (f : Future) :
  snd (handled fs) = None ->
  handled (fs ++ [f])
  = match parse_error f with
    | Some e => (fs, Some e)
    | None => (fs ++ [f], None)
    end.
Proof.
  intros H. pose proof (proj1 (handled_none_iff fs) H) as Hall.
  destruct (parse_error f) as [e|] eqn:P.
  - now apply handled_stops.
  - apply handled_all. intros g Hg.
    apply in_app_or in Hg as [Hg|[<-|[]]]; auto.
Qed.

Lemma harvest_agrees_step (env : Env) (new_ids : list string) (w : World)
    (m : move) (h h' : Harvest) :
  harvest_agrees env new_ids w h -> harvest_step env m h = Some h' ->
  harvest_agrees env new_ids w h'.
Proof.
  unfold harvest_agrees. intros (sub & Hsub & Hw & Hs).
  destruct m as [start|i|i|k]; cbn [harvest_step].
  - destruct (to_submit h) as [|bid_id rest]; [discriminate|].
    destruct (Pool.submit start bid_id (executor h)); [|discriminate].
    intros H; inversion H; subst h'; clear H.
    cbn [to_submit yielded stopped world].
    exists (sub ++ [bid_id]). split; [now rewrite <- app_assoc|].
    split; [|exact Hs]. rewrite Hw.
    unfold executor_submit, bind, emit, ret. cbn [snd db session log trace].
    now rewrite map_app, app_assoc.
  - destruct (Pool.take i (executor h)); [|discriminate].
    intros H; inversion H; subst h'; clear H. now exists sub.
  - destruct (Pool.finish i (executor h)) as [[bid_id ex]|]; [|discriminate].
    intros H; inversion H; subst h'; clear H. now exists sub.
  - destruct (to_submit h) as [|? ?] eqn:T; [|discriminate].
    destruct (stopped h) eqn:S; [discriminate|].
    destruct (nth_error (completed h) k) as [bid_id|]; [|discriminate].
    rewrite handle_future_eq. symmetry in Hs.
    intros H. exists sub. cbn [to_submit] in *.
    pose proof (handled_snoc _ (get_details_for_bid env bid_id) Hs) as Hsn.
    rewrite (handled_fst_all _ Hs) in Hw.
    destruct (parse_error (get_details_for_bid env bid_id)) as [e|];
      inversion H; subst h'; clear H;
      cbn [to_submit yielded stopped world];
      rewrite map_app; cbn [map]; rewrite Hsn; cbn [fst snd];
      (split; [exact Hsub|]); (split; [|reflexivity]).
    + exact Hw.
    + rewrite Hw. cbn [db session log trace].
      now rewrite !flat_map_app, <- !app_assoc; cbn [flat_map];
        rewrite !app_nil_r.
Qed.

Lemma harvest_agrees_run (env : Env) (new_ids : list string) (w : World)
    (moves : list move) (h h' : Harvest) :
  harvest_agrees env new_ids w h -> harvest_run env moves h = Some h' ->
  harvest_agrees env new_ids w h'.
Proof.
  revert h; induction moves as [|m moves IH]; intros h Hinv; simpl.
  - intros H; inversion H; now subst.
  - destruct (harvest_step env m h) as [h1|] eqn:S; [|discriminate].
    apply IH. eapply harvest_agrees_step; eassumption.
Qed.

(** X9. The interleavings of the coordinator with the workers of the pool
    change nothing but the order of the futures: at any moment after the
    last submission, whatever happened before, the world and the exception,
    if any, are those [process_new_bids] computes when [as_completed] yields
    the futures in the order in which the loop took them. *)
Theorem harvest_steps_agree
    (env : Env) (new_ids : list string) (w : World)
    (moves : list move) (h : Harvest) :
  harvest_run env moves (harvest_start new_ids w) = Some h ->
  to_submit h = [] ->
  process_new_bids (with_order env (yielded h)) new_ids w
  = (outcome (stopped h), world h).
Proof.
  intros Hrun Htodo.
  assert (Hstart : harvest_agrees env new_ids w (harvest_start new_ids w)).
  { exists []. cbn. now rewrite !app_nil_r, world_eta. }
  destruct (harvest_agrees_run env new_ids w moves _ _ Hstart Hrun)
    as (sub & Hsub & Hw & Hs).
  rewrite Htodo, app_nil_r in Hsub. subst sub.
  rewrite process_new_bids_eq. cbv zeta.
  change (as_completed (with_order env (yielded h))
            (map (get_details_for_bid (with_order env (yielded h))) new_ids))
    with (map (get_details_for_bid env) (yielded h)).
  now rewrite Hw, Hs.
Qed.

(** Twenty identifiers, handled last fetched first: twenty bids, as the
    loop of [process_new_bids] adds them in that order. *)
Lemma harvest_steps_agree_fixture :
  harvest_run env_all_ok complete_schedule
    (harvest_start twenty_ids empty_world) = Some complete_harvest
  /\ to_submit complete_harvest = []
  /\ yielded complete_harvest = rev twenty_ids
  /\ session (world complete_harvest) = map snow_bid (rev twenty_ids)
  /\ process_new_bids (with_order env_all_ok (yielded complete_harvest))
       twenty_ids empty_world
     = (outcome (stopped complete_harvest), world complete_harvest).
Proof.
  assert (H1 : harvest_run env_all_ok complete_schedule
                 (harvest_start twenty_ids empty_world)
               = Some complete_harvest) by (vm_compute; reflexivity).
  assert (H2 : to_submit complete_harvest = []) by (vm_compute; reflexivity).
  split; [exact H1|]. split; [exact H2|].
  split; [vm_compute; reflexivity|]. split; [vm_compute; reflexivity|].
  exact (harvest_steps_agree env_all_ok twenty_ids empty_world
           complete_schedule complete_harvest H1 H2).
Defined.
